(** * CSV Merger: the normalise / merge / dedupe / chunk pipeline of [App.tsx]

    A shallow embedding of [processFiles], [handleFileChange] and
    [downloadChunk] of [src/App.tsx], with the properties of the
    pipeline stated and proved over it.

    Conventions of the embedding:
    - a JavaScript string is the list of its UTF-16 code units ([N]);
    - a JavaScript number that only ever holds a count is a [Z]
      (every count here stays far below 2^53, where doubles are exact);
    - a [Set<string>] is the list of its elements in insertion order;
    - the React state of the component is a record, and every handler
      is a function from the state (and what the browser delivers) to
      the next state and the effects raised ([alert], [console.error]). *)

From Stdlib Require Import String Ascii.
From Stdlib Require Import List ZArith NArith Lia Bool Permutation.
From Equations Require Import Equations.
Import ListNotations.

Local Open Scope Z_scope.

(* ===================================================================== *)
(** ** JavaScript strings *)
(* ===================================================================== *)

Module Js.

(** A UTF-16 code unit. *)
Definition char := N.

Definition jsstring := list char.

Definition jsstring_eq_dec : forall a b : jsstring, {a = b} + {a <> b} :=
  list_eq_dec N.eq_dec.

(** A string literal of the source (ASCII only), as code units. *)
Definition lit (s : string) : jsstring :=
  map N_of_ascii (list_ascii_of_string s).

(** ECMAScript [WhiteSpace] and [LineTerminator] code points: what
    [String.prototype.trim] removes. *)
Definition is_ws (c : char) : bool :=
  ((9 <=? c) && (c <=? 13)          (* TAB, LF, VT, FF, CR *)
   || (c =? 32)                     (* SPACE *)
   || (c =? 160)                    (* NO-BREAK SPACE *)
   || (c =? 5760)                   (* U+1680 *)
   || ((8192 <=? c) && (c <=? 8202))  (* U+2000 .. U+200A *)
   || (c =? 8232) || (c =? 8233)    (* U+2028, U+2029 *)
   || (c =? 8239)                   (* U+202F *)
   || (c =? 8287)                   (* U+205F *)
   || (c =? 12288)                  (* U+3000 *)
   || (c =? 65279))%N.              (* U+FEFF *)

Fixpoint trimStart (s : jsstring) : jsstring :=
  match s with
  | c :: s' => if is_ws c then trimStart s' else s
  | [] => []
  end.

Definition trimEnd (s : jsstring) : jsstring :=
  rev (trimStart (rev s)).

(** [s.trim()] *)
Definition trim (s : jsstring) : jsstring :=
  trimEnd (trimStart s).

(** The line feed, the separator of [csvData.split('\n')]. *)
Definition LF : char := 10%N.

(** [s.split('\n')]: the pieces between line feeds; never empty
    (the empty string splits into one empty piece). *)
Fixpoint split_nl (s : jsstring) : list jsstring :=
  match s with
  | [] => [[]]
  | c :: s' =>
      if (c =? LF)%N then [] :: split_nl s'
      else match split_nl s' with
           | r :: rs => (c :: r) :: rs
           | [] => [[c]]
           end
  end.

(** [rows.join('\n')] *)
Fixpoint join_nl (rows : list jsstring) : jsstring :=
  match rows with
  | [] => []
  | [r] => r
  | r :: rs => r ++ LF :: join_nl rs
  end.

(** [s.startsWith(p)] *)
Fixpoint startsWith (s p : jsstring) : bool :=
  match p, s with
  | [], _ => true
  | _ :: _, [] => false
  | a :: p', c :: s' => (c =? a)%N && startsWith s' p'
  end.

(** [s.substring(1)] *)
Definition substring1 (s : jsstring) : jsstring := tl s.

(** [a.slice(start, end)] on an array, with the clamping of relative
    indices that [Array.prototype.slice] performs. *)
Definition slice {A} (a : list A) (start stop : Z) : list A :=
  let len := Z.of_nat (length a) in
  let k := if start <? 0 then Z.max (len + start) 0 else Z.min start len in
  let final := if stop <? 0 then Z.max (len + stop) 0 else Z.min stop len in
  firstn (Z.to_nat (final - k)) (skipn (Z.to_nat k) a).

(** Number of bytes of the UTF-8 encoding of a string, as [Blob]
    encodes its string parts: a surrogate pair is one code point of
    four bytes, a lone surrogate becomes U+FFFD (three bytes). *)
Definition is_high (c : char) : bool := ((55296 <=? c) && (c <=? 56319))%N.
Definition is_low (c : char) : bool := ((56320 <=? c) && (c <=? 57343))%N.

Fixpoint utf8_length (s : jsstring) : Z :=
  match s with
  | [] => 0
  | c :: s' =>
      if (c <? 128)%N then 1 + utf8_length s'
      else if (c <? 2048)%N then 2 + utf8_length s'
      else if is_high c then
        match s' with
        | d :: s'' => if is_low d then 4 + utf8_length s''
                      else 3 + utf8_length s'
        | [] => 3
        end
      else 3 + utf8_length s'
  end.

(** A [Set<string>], in insertion order. *)
Definition StringSet := list jsstring.

Definition has (s : StringSet) (v : jsstring) : bool :=
  existsb (fun w => if jsstring_eq_dec w v then true else false) s.

(** [s.add(v)]: a value already present keeps its place. *)
Definition add (s : StringSet) (v : jsstring) : StringSet :=
  if has s v then s else s ++ [v].

End Js.

Import Js.

(* ===================================================================== *)
(** ** The component: its state, and what [processFiles] computes *)
(* ===================================================================== *)

Record FileStats := {
  totalFiles : Z;
  totalRecords : Z;
  duplicatesRemoved : Z
}.

Record ProcessedChunk := {
  data : list jsstring;
  size : Z
}.

(** A selected file: its name, and what [reader.readAsText(file)]
    delivers for it: [Some csvData] to [reader.onload], or [None] when
    [reader.onerror] fires instead. *)
Record File := {
  name : jsstring;
  readAsText : option jsstring
}.

(** The [useState] cells that the pipeline reads and writes. *)
Record AppState := {
  selectedFiles : option (list File);
  stats : option FileStats;
  processedChunks : list ProcessedChunk
}.

Inductive Effect :=
| Alert (msg : string)
| ConsoleError (msg : string).

Definition initialState : AppState :=
  {| selectedFiles := None; stats := None; processedChunks := [] |}.

(** [handleFileChange]: [files] is [event.target.files]. *)
Definition handleFileChange (s : AppState) (files : option (list File)) : AppState :=
  match files with
  | Some fs =>
      if 0 <? Z.of_nat (length fs)
      then {| selectedFiles := Some fs;
              stats := stats s;
              processedChunks := processedChunks s |}
      else s
  | None => s
  end.

(** Lines 71-75: the body of the row loop, from a row to the value added
    to [mergedData]. *)
Definition normalize (row : jsstring) : jsstring :=
  let value := trim row in
  let value := if startsWith value (lit "0") then substring1 value else value in
  lit "971" ++ value.

(** Lines 70-77: [for (let i = 1; i < rows.length; i++)]. The guard keeps
    [i] inside [rows], so the default of [nth] is never read. *)
Equations? row_loop (rows : list jsstring) (i : Z) (mergedData : StringSet)
  : StringSet by wf (Z.to_nat (Z.of_nat (length rows) - i)) lt :=
  row_loop rows i mergedData with Z_lt_dec i (Z.of_nat (length rows)) => {
    | left _ := row_loop rows (i + 1)
                  (add mergedData (normalize (nth (Z.to_nat i) rows [])));
    | right _ := mergedData }.
Proof. lia. Qed.

(** The two variables that the [onload] callbacks share. *)
Definition Locals := (StringSet * Z)%type.

(** [row.trim() !== ''] *)
Definition nonblank (row : jsstring) : bool :=
  if jsstring_eq_dec (trim row) (lit "") then false else true.

(** Lines 65-79: [reader.onload], on the text of one file. *)
Definition onload (csvData : jsstring) (st : Locals) : Locals :=
  let '(mergedData, totalRecords) := st in
  let rows := filter nonblank (split_nl csvData) in
  let totalRecords := totalRecords + (Z.of_nat (length rows) - 1) in
  (row_loop rows 1 mergedData, totalRecords).

(** All reads are started at once and their callbacks run one at a time,
    in the order the reads complete. [sched] lists the indices of the
    files in that order; [arrivals] is the files in that order. *)
Definition arrivals (files : list File) (sched : list nat) : list File :=
  flat_map (fun i => match nth_error files i with
                     | Some f => [f]
                     | None => []
                     end) sched.

(** Every read completes, once. *)
Definition valid_sched (files : list File) (sched : list nat) : Prop :=
  Permutation sched (seq 0 (length files)).

(** The reads complete in the order the files were supplied. *)
Definition in_order (files : list File) : list nat := seq 0 (length files).

(** [await Promise.all(readFiles)]: the callbacks in completion order;
    the first [onerror] rejects ([None]). A callback that runs after the
    rejection only writes the two local variables, which are not read
    again. *)
Fixpoint readFiles (arrived : list File) (st : Locals) : option Locals :=
  match arrived with
  | [] => Some st
  | f :: rest =>
      match readAsText f with
      | Some csvData => readFiles rest (onload csvData st)
      | None => None
      end
  end.

Definition chunkSize : Z := 9000.

(** Lines 101-104: a chunk and the size of its blob. *)
Definition mkChunk (chunk : list jsstring) : ProcessedChunk :=
  {| data := chunk; size := utf8_length (join_nl chunk) |}.

(** Lines 99-105: [for (let i = 0; i < uniqueData.length; i += chunkSize)]. *)
Equations? chunk_loop (uniqueData : list jsstring) (i : Z)
  (chunks : list ProcessedChunk)
  : list ProcessedChunk by wf (Z.to_nat (Z.of_nat (length uniqueData) - i)) lt :=
  chunk_loop uniqueData i chunks with Z_lt_dec i (Z.of_nat (length uniqueData)) => {
    | left _ :=
        let chunk := slice uniqueData i (i + chunkSize) in
        chunk_loop uniqueData (i + chunkSize) (chunks ++ [mkChunk chunk]);
    | right _ := chunks }.
Proof. unfold chunkSize. lia. Qed.

(** Lines 52-111. *)
Definition processFiles (s : AppState) (sched : list nat) : AppState * list Effect :=
  match selectedFiles s with
  | None => (s, [Alert "Please select at least one CSV file."])
  | Some files =>
      match readFiles (arrivals files sched) ([], 0) with
      | Some (mergedData, totalRecords) =>
          let uniqueData := mergedData in
          let duplicatesRemoved := totalRecords - Z.of_nat (length uniqueData) in
          ({| selectedFiles := selectedFiles s;
              stats := Some {| totalFiles := Z.of_nat (length files);
                               totalRecords := totalRecords;
                               duplicatesRemoved := duplicatesRemoved |};
              processedChunks := chunk_loop uniqueData 0 [] |},
           [])
      | None =>
          (s, [ConsoleError "Error reading files:";
               Alert "Error processing files. Please try again."])
      end
  end.

(** Line 120: the text of the blob that [downloadChunk] offers. *)
Definition downloadChunk (chunk : list jsstring) : jsstring := join_nl chunk.

(* ===================================================================== *)
(** ** Vocabulary of the specification *)
(* ===================================================================== *)

(** The digit ['0']. *)
Definition ZERO : char := 48%N.

(** A string begins with the country-code prefix. *)
Definition has_prefix_971 (r : jsstring) : Prop :=
  exists rest, r = lit "971" ++ rest.

(** All code units of a string are white space. *)
Definition all_ws (s : jsstring) : Prop := Forall (fun c => is_ws c = true) s.

(** A string neither begins nor ends with white space. *)
Definition trimmed (s : jsstring) : Prop :=
  (forall c s', s = c :: s' -> is_ws c = false) /\
  (forall c s', s = s' ++ [c] -> is_ws c = false).

(** The Records of one file, in line order: the lines that are not empty
    after trimming, without the first of them, each one normalised. *)
Definition file_records (csvData : jsstring) : list jsstring :=
  map normalize (tl (filter nonblank (split_nl csvData))).

(** A file none of whose lines survives trimming. *)
Definition blank_file (csvData : jsstring) : bool :=
  match filter nonblank (split_nl csvData) with
  | [] => true
  | _ :: _ => false
  end.

Definition differs (v w : jsstring) : bool :=
  if jsstring_eq_dec w v then false else true.

(** First-seen order: each value at the place of its first occurrence,
    later occurrences dropped. *)
Fixpoint first_seen (vs : list jsstring) : list jsstring :=
  match vs with
  | [] => []
  | v :: vs' => v :: filter (differs v) (first_seen vs')
  end.

(** The accounting of the specification: the number of non-header lines
    read across all files, before deduplication. *)
Definition lines_read (texts : list jsstring) : Z :=
  Z.of_nat (length (flat_map file_records texts)).

(** The number of files that have no line at all once blank lines are
    dropped. *)
Definition blank_files (texts : list jsstring) : Z :=
  Z.of_nat (length (filter blank_file texts)).

(** The sizes of a sequence of chunks are those of a partition into
    groups of [chunkSize]: every one but the last is full, and the last
    holds between 1 and [chunkSize] elements. *)
Fixpoint chunk_sizes_ok (sizes : list Z) : Prop :=
  match sizes with
  | [] => True
  | [n] => 1 <= n <= chunkSize
  | n :: rest => n = chunkSize /\ chunk_sizes_ok rest
  end.

(** [chunk.data.length], for each chunk. *)
Definition chunk_lengths (chunks : list ProcessedChunk) : list Z :=
  map (fun c => Z.of_nat (length (data c))) chunks.

(** The deduplicated Corpus of a run: [uniqueData], when every read
    succeeds. *)
Definition corpus (files : list File) (sched : list nat) : option StringSet :=
  option_map fst (readFiles (arrivals files sched) ([], 0)).

(** What the user and the browser can do to the component. *)
Inductive step : AppState -> AppState -> Prop :=
| step_handleFileChange s files :
    step s (handleFileChange s files)
| step_processFiles s sched :
    (forall files, selectedFiles s = Some files -> valid_sched files sched) ->
    step s (fst (processFiles s sched)).

Inductive reachable : AppState -> Prop :=
| reachable_initial : reachable initialState
| reachable_step s s' : reachable s -> step s s' -> reachable s'.

(** What holds of every chunk on display: it is not empty, and each of
    its records carries the prefix and is a single line. *)
Definition chunk_ok (c : ProcessedChunk) : Prop :=
  data c <> [] /\
  Forall (fun r => has_prefix_971 r /\ ~ In LF r) (data c).

(** Running examples. *)
Definition ex_file (csvData : jsstring) : File :=
  {| name := lit "numbers.csv"; readAsText := Some csvData |}.

Definition ex_header_1 : File :=
  ex_file (lit "phone" ++ LF :: lit "0501234567").

Definition ex_header_2 : File :=
  ex_file (lit "phone" ++ LF :: lit "501234568").

Definition ex_empty : File := ex_file (lit "").

Definition ex_header_only : File := ex_file (lit "phone").

Definition ex_duplicates : File :=
  ex_file (lit "phone" ++ LF :: lit "0501111111" ++ LF :: lit "0501111111").

(** 9005 distinct records. *)
Definition ex_corpus : list jsstring :=
  map (fun k => lit "971" ++ [N.of_nat k]) (seq 0 (Z.to_nat 9005)).

Definition ex_unreadable : File :=
  {| name := lit "broken.csv"; readAsText := None |}.

(* ===================================================================== *)
(** ** [downloadChunk]: the name and the blob of an exported file *)
(* ===================================================================== *)

(** The decimal digit of a value below ten. *)
Definition digit (d : Z) : char := Z.to_N (48 + d).

(** The decimal digits of a non-negative integer, most significant
    first. *)
Equations? digits (n : Z) : jsstring by wf (Z.to_nat n) lt :=
  digits n with Z_lt_dec n 10 => {
    | left _ := [digit n];
    | right _ := digits (n / 10) ++ [digit (n mod 10)] }.
Proof.
  assert (0 <= n / 10 < n) by (split; [apply Z.div_pos | apply Z.div_lt]; lia).
  lia.
Qed.

(** [String(n)] for an integer [n]. *)
Definition String_of_number (n : Z) : jsstring :=
  if n <? 0 then lit "-" ++ digits (- n) else digits n.

(** [s.padStart(targetLength, fill)] with a filler of one code unit. *)
Definition padStart (s : jsstring) (targetLength : Z) (fill : char) : jsstring :=
  repeat fill (Z.to_nat (targetLength - Z.of_nat (length s))) ++ s.

(** What [downloadChunk] reads of [new Date()]. *)
Record Date := {
  getDate : Z;
  getMonth : Z;
  getFullYear : Z
}.

(** Lines 114-118. *)
Definition dateStr (today : Date) : jsstring :=
  let day := padStart (String_of_number (getDate today)) 2 ZERO in
  let month := padStart (String_of_number (getMonth today + 1)) 2 ZERO in
  let year :=
    let y := String_of_number (getFullYear today) in
    slice y (-2) (Z.of_nat (length y)) in
  day ++ month ++ year.

(** Line 124: [a.download]. *)
Definition download_name (today : Date) (index : Z) : jsstring :=
  lit "Numbers_" ++ dateStr today ++ lit "_part_"
    ++ String_of_number (index + 1) ++ lit ".csv".

(** The file that the click on the anchor saves. *)
Record Download := {
  filename : jsstring;
  mime : string;
  content : jsstring
}.

(** Lines 113-129: the download that [downloadChunk(chunk, index)]
    triggers on the day [today]. *)
Definition downloadChunk_file (today : Date) (chunk : list jsstring) (index : Z)
  : Download :=
  {| filename := download_name today index;
     mime := "text/csv";
     content := downloadChunk chunk |}.

(** The number that a string of decimal digits denotes. *)
Definition digits_value (s : jsstring) : Z :=
  fold_left (fun acc c => 10 * acc + (Z.of_N c - 48)) s 0.

(** A calendar date as [Date] reports it, from the year 10 on. *)
Definition calendar_date (today : Date) : Prop :=
  1 <= getDate today <= 31 /\
  0 <= getMonth today <= 11 /\
  10 <= getFullYear today.

(** The sum of a list of counts. *)
Definition sumZ (l : list Z) : Z := fold_right Z.add 0 l.

(** A string of ASCII code units. *)
Definition ascii_only (s : jsstring) : Prop := Forall (fun c => (c < 128)%N) s.

(* ===================================================================== *)
(** ** Strings: [trim], [split] and [join] *)
(* ===================================================================== *)

Section Trim.

Lemma trimStart_decompose (s : jsstring) :
  exists pre, s = pre ++ trimStart s /\ all_ws pre.
Proof.
  induction s as [|c s IH]; simpl.
  - exists []. split; [reflexivity | constructor].
  - destruct (is_ws c) eqn:Hc.
    + destruct IH as (pre & Heq & Hws).
      exists (c :: pre). split.
      * simpl. f_equal. exact Heq.
      * constructor; assumption.
    + exists []. split; [reflexivity | constructor].
Qed.

Lemma trimStart_head (s : jsstring) c s' :
  trimStart s = c :: s' -> is_ws c = false.
Proof.
  induction s as [|d s IH]; simpl; [discriminate|].
  destruct (is_ws d) eqn:Hd; [exact IH|].
  intros [= -> _]. exact Hd.
Qed.

Lemma trimStart_fixed (s : jsstring) c s' :
  s = c :: s' -> is_ws c = false -> trimStart s = s.
Proof. intros -> H. simpl. rewrite H. reflexivity. Qed.

Lemma trimStart_all_ws (s : jsstring) : all_ws s -> trimStart s = [].
Proof.
  induction 1 as [|c s Hc _ IH]; simpl; [reflexivity|].
  rewrite Hc. exact IH.
Qed.

(** What is left of a string that ends with a non-blank code unit still
    ends with it. *)
Lemma trimStart_snoc (s : jsstring) c :
  is_ws c = false -> exists s', trimStart (s ++ [c]) = s' ++ [c].
Proof.
  intros Hc. induction s as [|d s IH]; simpl.
  - rewrite Hc. exists []. reflexivity.
  - destruct (is_ws d); [exact IH|].
    exists (d :: s). reflexivity.
Qed.

Lemma trimEnd_decompose (s : jsstring) :
  exists post, s = trimEnd s ++ post /\ all_ws post.
Proof.
  unfold trimEnd.
  destruct (trimStart_decompose (rev s)) as (pre & Heq & Hws).
  exists (rev pre). split.
  - rewrite <- rev_app_distr, <- Heq, rev_involutive. reflexivity.
  - unfold all_ws in *. apply Forall_rev. exact Hws.
Qed.

Lemma trimEnd_last (s : jsstring) c s' :
  trimEnd s = s' ++ [c] -> is_ws c = false.
Proof.
  unfold trimEnd. intros H.
  apply (f_equal (@rev _)) in H.
  rewrite rev_involutive, rev_app_distr in H. simpl in H.
  eapply trimStart_head. exact H.
Qed.

Lemma trimEnd_head (s : jsstring) c s' :
  s = c :: s' -> is_ws c = false -> exists s'', trimEnd s = c :: s''.
Proof.
  intros -> Hc. unfold trimEnd. simpl.
  destruct (trimStart_snoc (rev s') c Hc) as (t & Ht).
  rewrite Ht, rev_app_distr. simpl. eauto.
Qed.

Lemma trimEnd_fixed (s : jsstring) c s' :
  s = s' ++ [c] -> is_ws c = false -> trimEnd s = s.
Proof.
  intros -> Hc. unfold trimEnd.
  rewrite rev_app_distr. simpl. rewrite Hc.
  change (rev (c :: rev s') = s' ++ [c]).
  simpl. rewrite rev_involutive. reflexivity.
Qed.

Lemma trim_decompose (s : jsstring) :
  exists pre post, s = pre ++ trim s ++ post /\ all_ws pre /\ all_ws post.
Proof.
  destruct (trimStart_decompose s) as (pre & Heq & Hpre).
  destruct (trimEnd_decompose (trimStart s)) as (post & Heq' & Hpost).
  exists pre, post. unfold trim. rewrite <- Heq'. auto.
Qed.

Lemma trim_trimmed (s : jsstring) : trimmed (trim s).
Proof.
  split.
  - intros c s' H. unfold trim in H.
    destruct (trimStart s) as [|d t] eqn:Hs.
    + discriminate H.
    + pose proof (trimStart_head _ _ _ Hs) as Hd.
      destruct (trimEnd_head (d :: t) d t eq_refl Hd) as (t' & Ht').
      rewrite Ht' in H. injection H as -> _. exact Hd.
  - intros c s' H. unfold trim in H. eapply trimEnd_last. exact H.
Qed.

(** A string with no white space at either end is left as it is. *)
Lemma trim_fixed (s : jsstring) : trimmed s -> trim s = s.
Proof.
  intros [Hhd Hlast]. unfold trim.
  destruct s as [|c s']; [reflexivity|].
  rewrite (trimStart_fixed (c :: s') c s' eq_refl (Hhd _ _ eq_refl)).
  destruct (exists_last (l := c :: s')) as (t & d & Ht); [discriminate|].
  rewrite Ht. apply (trimEnd_fixed _ d t eq_refl).
  apply (Hlast d t). exact Ht.
Qed.

Lemma trim_all_ws (s : jsstring) : all_ws s -> trim s = [].
Proof.
  intros H. unfold trim. rewrite (trimStart_all_ws s H). reflexivity.
Qed.

Lemma nonblank_iff (row : jsstring) : nonblank row = true <-> trim row <> [].
Proof.
  unfold nonblank. change (lit "") with (@nil char).
  destruct (jsstring_eq_dec (trim row) []); split; congruence.
Qed.

End Trim.

Section SplitJoin.

Lemma split_nl_nonempty (s : jsstring) : split_nl s <> [].
Proof.
  destruct s as [|c s]; simpl; [discriminate|].
  destruct (c =? LF)%N; [discriminate|].
  destruct (split_nl s); discriminate.
Qed.

(** No piece of a split contains the separator. *)
Lemma split_nl_no_LF (s : jsstring) :
  Forall (fun r => ~ In LF r) (split_nl s).
Proof.
  induction s as [|c s IH]; simpl.
  - constructor; [intros [] | constructor].
  - destruct (N.eqb_spec c LF) as [->|Hc].
    + constructor; [intros [] | exact IH].
    + destruct (split_nl s) as [|r rs].
      * constructor; [|constructor]. intros [H|[]]. congruence.
      * inversion IH as [|? ? Hr Hrs]; subst.
        constructor; [|exact Hrs].
        intros [H|H]; [congruence | exact (Hr H)].
Qed.

(** Every code unit of a piece is a code unit of the text. *)
Lemma split_nl_incl (s : jsstring) r c :
  In r (split_nl s) -> In c r -> In c s.
Proof.
  revert r. induction s as [|d s IH]; simpl; intros r Hr Hc.
  - destruct Hr as [<-|[]]. destruct Hc.
  - destruct (d =? LF)%N.
    + destruct Hr as [<-|Hr]; [destruct Hc|]. right. eapply IH; eauto.
    + destruct (split_nl s) as [|r0 rs].
      * destruct Hr as [<-|[]]. destruct Hc as [->|[]]. left. reflexivity.
      * destruct Hr as [<-|Hr].
        -- destruct Hc as [->|Hc]; [left; reflexivity|].
           right. apply (IH r0); [left; reflexivity | exact Hc].
        -- right. apply (IH r); [right; exact Hr | exact Hc].
Qed.

Lemma join_nl_cons (r : jsstring) rs :
  rs <> [] -> join_nl (r :: rs) = r ++ LF :: join_nl rs.
Proof. destruct rs; [congruence | reflexivity]. Qed.

(** Joining the pieces of a split gives the text back. *)
Lemma join_split_nl (s : jsstring) : join_nl (split_nl s) = s.
Proof.
  induction s as [|c s IH]; simpl; [reflexivity|].
  destruct (N.eqb_spec c LF) as [->|Hc].
  - rewrite join_nl_cons by apply split_nl_nonempty.
    simpl. rewrite IH. reflexivity.
  - destruct (split_nl s) as [|r rs] eqn:Hs.
    + exfalso. exact (split_nl_nonempty s Hs).
    + destruct rs as [|r' rs'].
      * simpl in *. congruence.
      * rewrite join_nl_cons by discriminate.
        rewrite join_nl_cons in IH by discriminate.
        simpl. rewrite <- IH. reflexivity.
Qed.

Lemma split_nl_app_LF (r s : jsstring) :
  ~ In LF r -> split_nl (r ++ LF :: s) = r :: split_nl s.
Proof.
  induction r as [|c r IH]; simpl; intros Hr.
  - reflexivity.
  - destruct (N.eqb_spec c LF) as [->|Hc]; [tauto|].
    rewrite IH by tauto. reflexivity.
Qed.

Lemma split_nl_single (r : jsstring) : ~ In LF r -> split_nl r = [r].
Proof.
  induction r as [|c r IH]; simpl; intros Hr; [reflexivity|].
  destruct (N.eqb_spec c LF) as [->|Hc]; [tauto|].
  rewrite IH by tauto. reflexivity.
Qed.

(** Splitting the join of separator-free rows gives the rows back. *)
Lemma split_join_nl (rows : list jsstring) :
  rows <> [] -> Forall (fun r => ~ In LF r) rows ->
  split_nl (join_nl rows) = rows.
Proof.
  induction rows as [|r rows IH]; intros Hne Hall; [congruence|].
  inversion Hall as [|? ? Hr Hrows]; subst.
  destruct rows as [|r' rows'].
  - simpl. apply split_nl_single. exact Hr.
  - rewrite join_nl_cons by discriminate.
    rewrite split_nl_app_LF by exact Hr.
    rewrite IH; [reflexivity | discriminate | exact Hrows].
Qed.

(** A text made of white space only has no line that survives. *)
Lemma all_ws_no_rows (csvData : jsstring) :
  all_ws csvData -> filter nonblank (split_nl csvData) = [].
Proof.
  intros Hws.
  assert (Hall : forall r, In r (split_nl csvData) -> nonblank r = false).
  { intros r Hr. destruct (nonblank r) eqn:Hn; [|reflexivity].
    apply nonblank_iff in Hn. exfalso. apply Hn. apply trim_all_ws.
    apply Forall_forall. intros c Hc.
    unfold all_ws in Hws. rewrite Forall_forall in Hws.
    apply Hws. eapply split_nl_incl; eauto. }
  induction (split_nl csvData) as [|r rs IH]; simpl; [reflexivity|].
  rewrite (Hall r) by (left; reflexivity).
  apply IH. intros r' Hr'. apply Hall. right. exact Hr'.
Qed.

End SplitJoin.

(* ===================================================================== *)
(** ** The normaliser *)
(* ===================================================================== *)

Section Normalizer.

Lemma startsWith_zero (v : jsstring) :
  startsWith v (lit "0") = true <-> exists rest, v = ZERO :: rest.
Proof.
  change (lit "0") with [ZERO]. destruct v as [|c v]; simpl.
  - split; [discriminate | intros (rest & H); discriminate].
  - replace (startsWith v []) with true by (destruct v; reflexivity).
    rewrite andb_true_r. split.
    + intros H. apply N.eqb_eq in H. subst. eauto.
    + intros (rest & [= -> _]). reflexivity.
Qed.

(** A trimmed value that begins with ['0'] loses that one code unit. *)
Lemma normalize_zero (row rest : jsstring) :
  trim row = ZERO :: rest -> normalize row = lit "971" ++ rest.
Proof.
  unfold normalize. intros ->.
  replace (startsWith (ZERO :: rest) (lit "0")) with true
    by (symmetry; apply startsWith_zero; eauto).
  reflexivity.
Qed.

(** Any other trimmed value is kept whole. *)
Lemma normalize_other (row : jsstring) :
  (forall rest, trim row <> ZERO :: rest) ->
  normalize row = lit "971" ++ trim row.
Proof.
  unfold normalize. intros H.
  destruct (startsWith (trim row) (lit "0")) eqn:Hs; [|reflexivity].
  apply startsWith_zero in Hs. destruct Hs as (rest & Hr).
  exfalso. exact (H rest Hr).
Qed.

Example normalize_leading_zero :
  normalize (lit "0501234567") = lit "971501234567".
Proof. reflexivity. Qed.

Example normalize_no_leading_zero :
  normalize (lit "501234568") = lit "971501234568".
Proof. reflexivity. Qed.

Lemma normalize_prefix (row : jsstring) : has_prefix_971 (normalize row).
Proof. unfold normalize, has_prefix_971. eauto. Qed.

Lemma trim_incl (s : jsstring) c : In c (trim s) -> In c s.
Proof.
  destruct (trim_decompose s) as (pre & post & Heq & _ & _).
  intros H. rewrite Heq. apply in_or_app. right.
  apply in_or_app. left. exact H.
Qed.

Lemma normalize_no_LF (row : jsstring) :
  ~ In LF row -> ~ In LF (normalize row).
Proof.
  unfold normalize. intros Hrow Hin.
  apply in_app_or in Hin. destruct Hin as [Hin|Hin].
  - change (lit "971") with [57; 55; 49]%N in Hin.
    unfold LF in Hin. simpl in Hin. intuition discriminate.
  - apply Hrow. apply trim_incl.
    destruct (startsWith (trim row) (lit "0")); [|exact Hin].
    unfold substring1 in Hin. destruct (trim row); [destruct Hin|].
    right. exact Hin.
Qed.

(** A Record has no white space at either end. *)
Lemma normalize_trimmed (row : jsstring) : trimmed (normalize row).
Proof.
  destruct (trim_trimmed row) as [_ Hlast].
  split.
  - unfold normalize. intros c s' H. injection H as <- _. reflexivity.
  - intros c s' H.
    assert (Hcases : (exists t, trim row = t ++ [c]) \/ In c (lit "971")).
    { unfold normalize in H.
      set (v := if startsWith (trim row) (lit "0")
                then substring1 (trim row) else trim row) in H.
      assert (Hv : v = [] \/ exists t d, v = t ++ [d]).
      { destruct v as [|x v']; [left; reflexivity | right].
        destruct (exists_last (l := x :: v')) as (t & d & Ht);
          [discriminate | eauto]. }
      destruct Hv as [Hv | (t & d & Hv)].
      - right. rewrite Hv, app_nil_r in H. rewrite H.
        apply in_or_app. right. left. reflexivity.
      - left. rewrite Hv, app_assoc in H.
        apply app_inj_tail in H. destruct H as [_ <-].
        subst v. destruct (startsWith (trim row) (lit "0")).
        + unfold substring1 in Hv.
          destruct (trim row) as [|z w]; [destruct t; discriminate|].
          simpl in Hv. exists (z :: t). rewrite Hv. reflexivity.
        + eauto. }
    destruct Hcases as [(t & Ht) | Hin].
    + exact (Hlast c t Ht).
    + change (lit "971") with [57; 55; 49]%N in Hin. simpl in Hin.
      destruct Hin as [<-|[<-|[<-|[]]]]; reflexivity.
Qed.

End Normalizer.

(* ===================================================================== *)
(** ** The set [mergedData] *)
(* ===================================================================== *)

Section Dedup.

Lemma has_In (s : StringSet) v : has s v = true <-> In v s.
Proof.
  unfold has. rewrite existsb_exists. split.
  - intros (w & Hw & Heq). destruct (jsstring_eq_dec w v); congruence.
  - intros H. exists v. split; [exact H|].
    destruct (jsstring_eq_dec v v); congruence.
Qed.

Lemma has_false (s : StringSet) v : has s v = false <-> ~ In v s.
Proof.
  rewrite <- has_In. destruct (has s v); split; congruence.
Qed.

(** Adding values never shrinks the set, and grows it by at most one
    element per value. *)
Lemma add_all_length (vs : list jsstring) (s : StringSet) :
  (length s <= length (fold_left add vs s) <= length s + length vs)%nat.
Proof.
  revert s. induction vs as [|v vs IH]; intros s; simpl; [lia|].
  specialize (IH (add s v)). unfold add in *.
  destruct (has s v); [lia|].
  rewrite length_app in IH. simpl in IH. lia.
Qed.

Lemma add_all_In (vs : list jsstring) (s : StringSet) r :
  In r (fold_left add vs s) <-> In r s \/ In r vs.
Proof.
  revert s. induction vs as [|v vs IH]; intros s; simpl; [tauto|].
  rewrite IH. unfold add. destruct (has s v) eqn:Hv.
  - apply has_In in Hv. intuition (subst; auto).
  - rewrite in_app_iff. simpl. intuition.
Qed.

Lemma first_seen_cons v vs :
  first_seen (v :: vs) = v :: filter (differs v) (first_seen vs).
Proof. reflexivity. Qed.

Lemma filter_filter_ext {A} (f g h : A -> bool) (l : list A) :
  (forall x, h x = f x && g x) -> filter f (filter g l) = filter h l.
Proof.
  intros Hh. induction l as [|x l IH]; simpl; [reflexivity|].
  rewrite Hh. destruct (g x); simpl.
  - rewrite andb_true_r. destruct (f x); [f_equal|]; exact IH.
  - rewrite andb_false_r. exact IH.
Qed.

(** The set after adding [vs] to [s]: [s], then the first occurrences of
    the values of [vs] that [s] does not have, in order. *)
Lemma add_all_first_seen (vs : list jsstring) (s : StringSet) :
  fold_left add vs s = s ++ filter (fun w => negb (has s w)) (first_seen vs).
Proof.
  revert s. induction vs as [|v vs IH]; intros s.
  - simpl. rewrite app_nil_r. reflexivity.
  - rewrite first_seen_cons. simpl fold_left. rewrite IH. unfold add.
    destruct (has s v) eqn:Hv; simpl.
    + rewrite Hv. simpl. f_equal.
      symmetry. apply filter_filter_ext. intros w. unfold differs.
      destruct (jsstring_eq_dec w v) as [->|]; simpl.
      * rewrite Hv. reflexivity.
      * rewrite andb_true_r. reflexivity.
    + rewrite Hv. simpl. rewrite <- app_assoc. simpl. do 2 f_equal.
      symmetry. apply filter_filter_ext. intros w.
      unfold has at 1. rewrite existsb_app. simpl.
      fold (has s w). unfold differs.
      destruct (jsstring_eq_dec v w) as [->|Hne].
      * destruct (jsstring_eq_dec w w); [|congruence].
        rewrite orb_true_r. simpl. rewrite andb_false_r. reflexivity.
      * destruct (jsstring_eq_dec w v); [congruence|].
        rewrite orb_false_r, andb_true_r. reflexivity.
Qed.

Lemma add_all_empty (vs : list jsstring) : fold_left add vs [] = first_seen vs.
Proof.
  rewrite add_all_first_seen. simpl.
  induction (first_seen vs) as [|w l IH]; simpl; [reflexivity|].
  f_equal. exact IH.
Qed.

Lemma first_seen_In (vs : list jsstring) r : In r (first_seen vs) <-> In r vs.
Proof.
  rewrite <- add_all_empty, add_all_In. simpl. tauto.
Qed.

(** No two elements of the set are equal. *)
Lemma first_seen_NoDup (vs : list jsstring) : NoDup (first_seen vs).
Proof.
  induction vs as [|v vs IH]; [constructor|].
  rewrite first_seen_cons. constructor.
  - rewrite filter_In. unfold differs. intros [_ H].
    destruct (jsstring_eq_dec v v); congruence.
  - apply NoDup_filter. exact IH.
Qed.

Lemma first_seen_length (vs : list jsstring) :
  (length (first_seen vs) <= length vs)%nat.
Proof.
  rewrite <- add_all_empty.
  pose proof (add_all_length vs []) as H. simpl in H. lia.
Qed.

(** A sequence without repetition is its own first-seen order. *)
Lemma first_seen_NoDup_id (vs : list jsstring) : NoDup vs -> first_seen vs = vs.
Proof.
  induction 1 as [|v vs Hv _ IH]; [reflexivity|].
  rewrite first_seen_cons, IH. f_equal.
  apply forallb_filter_id. apply forallb_forall. intros w Hw.
  unfold differs. destruct (jsstring_eq_dec w v); [congruence | reflexivity].
Qed.

End Dedup.

(* ===================================================================== *)
(** ** One file: [reader.onload] *)
(* ===================================================================== *)

Section Onload.

Lemma row_loop_step (rows : list jsstring) i mergedData :
  i < Z.of_nat (length rows) ->
  row_loop rows i mergedData =
  row_loop rows (i + 1) (add mergedData (normalize (nth (Z.to_nat i) rows []))).
Proof.
  intros Hi. rewrite row_loop_equation_1.
  destruct (Z_lt_dec i (Z.of_nat (length rows))); [reflexivity | lia].
Qed.

Lemma row_loop_exit (rows : list jsstring) i mergedData :
  Z.of_nat (length rows) <= i -> row_loop rows i mergedData = mergedData.
Proof.
  intros Hi. rewrite row_loop_equation_1.
  destruct (Z_lt_dec i (Z.of_nat (length rows))); [lia | reflexivity].
Qed.

(** The loop adds the normalised rows from index [i] on, in order. *)
Lemma row_loop_from (rows : list jsstring) i mergedData :
  0 <= i ->
  row_loop rows i mergedData =
  fold_left add (map normalize (skipn (Z.to_nat i) rows)) mergedData.
Proof.
  intros Hi.
  remember (Z.to_nat (Z.of_nat (length rows) - i)) as n eqn:Hn.
  revert i mergedData Hi Hn.
  induction n as [|n IH]; intros i mergedData Hi Hn.
  - rewrite row_loop_exit by lia.
    rewrite skipn_all2 by lia. reflexivity.
  - rewrite row_loop_step by lia.
    rewrite (IH (i + 1)) by lia.
    assert (Hlt : (Z.to_nat i < length rows)%nat) by lia.
    replace (Z.to_nat (i + 1)) with (S (Z.to_nat i)) by lia.
    generalize dependent (Z.to_nat i). clear.
    intros k Hk. revert k Hk.
    induction rows as [|r rows IHr]; intros k Hk; simpl in Hk; [lia|].
    destruct k as [|k]; [reflexivity|].
    simpl. apply IHr. lia.
Qed.

(** What one file does to the two shared variables. *)
Lemma onload_spec (csvData : jsstring) mergedData total :
  onload csvData (mergedData, total) =
  (fold_left add (file_records csvData) mergedData,
   total + (Z.of_nat (length (filter nonblank (split_nl csvData))) - 1)).
Proof.
  unfold onload, file_records. f_equal.
  rewrite row_loop_from by lia.
  change (Z.to_nat 1) with 1%nat.
  destruct (filter nonblank (split_nl csvData)); reflexivity.
Qed.

(** The count that [onload] adds, against the number of Records of the
    file: one less when the file has no line at all. *)
Lemma onload_count (csvData : jsstring) :
  Z.of_nat (length (filter nonblank (split_nl csvData))) - 1 =
  Z.of_nat (length (file_records csvData))
  - (if blank_file csvData then 1 else 0).
Proof.
  unfold file_records, blank_file. rewrite length_map.
  destruct (filter nonblank (split_nl csvData)); simpl length; lia.
Qed.

End Onload.

(* ===================================================================== *)
(** ** All files: [Promise.all(readFiles)] *)
(* ===================================================================== *)

Section ReadFiles.

Lemma arrivals_in_order (files : list File) :
  arrivals files (in_order files) = files.
Proof.
  unfold arrivals, in_order.
  induction files as [|f files IH] using rev_ind; [reflexivity|].
  rewrite length_app, Nat.add_comm. simpl length.
  rewrite seq_S, flat_map_app. simpl.
  rewrite nth_error_app2, Nat.sub_diag by lia. simpl.
  f_equal.
  rewrite <- IH at 2. rewrite !flat_map_concat_map. f_equal.
  apply map_ext_in. intros i Hi. apply in_seq in Hi.
  rewrite nth_error_app1 by lia. reflexivity.
Qed.

(** Whatever the order of completion, every file arrives, once. *)
Lemma arrivals_Permutation (files : list File) sched :
  valid_sched files sched -> Permutation (arrivals files sched) files.
Proof.
  unfold valid_sched. intros H.
  rewrite <- (arrivals_in_order files) at 2.
  unfold arrivals, in_order. apply Permutation_flat_map. exact H.
Qed.

Lemma readFiles_rejects (arrived : list File) st :
  readFiles arrived st = None <->
  exists f, In f arrived /\ readAsText f = None.
Proof.
  revert st. induction arrived as [|f rest IH]; intros st; simpl.
  - split; [discriminate | intros (f & [] & _)].
  - destruct (readAsText f) as [csvData|] eqn:Hf.
    + rewrite IH. split.
      * intros (g & Hg & Hn). eauto.
      * intros (g & [<-|Hg] & Hn); [congruence | eauto].
    + split; [eauto | reflexivity].
Qed.

(** When every read succeeds, the shared variables end up as the
    first-seen merge of the files' Records in order of arrival, and a
    count that is the number of lines read less one per blank file. *)
Lemma readFiles_resolves (arrived : list File) texts mergedData total :
  map readAsText arrived = map Some texts ->
  readFiles arrived (mergedData, total) =
  Some (fold_left add (flat_map file_records texts) mergedData,
        total + lines_read texts - blank_files texts).
Proof.
  revert texts mergedData total.
  induction arrived as [|f rest IH]; intros texts mergedData total Hmap.
  - destruct texts; [|discriminate].
    unfold lines_read, blank_files. simpl. do 2 f_equal. lia.
  - destruct texts as [|csvData texts]; [discriminate|].
    simpl in Hmap. injection Hmap as Hf Hrest.
    cbn [readFiles]. rewrite Hf, onload_spec.
    rewrite (IH texts) by exact Hrest.
    cbn [flat_map]. rewrite fold_left_app. do 2 f_equal.
    rewrite onload_count. unfold lines_read, blank_files.
    cbn [flat_map filter]. rewrite length_app.
    destruct (blank_file csvData); simpl length; lia.
Qed.

(** The texts delivered, when no read fails. *)
Lemma all_read (arrived : list File) :
  (forall f, In f arrived -> readAsText f <> None) ->
  exists texts, map readAsText arrived = map Some texts.
Proof.
  induction arrived as [|f rest IH]; intros H.
  - exists []. reflexivity.
  - destruct IH as (texts & Ht); [intros g Hg; apply H; right; exact Hg|].
    destruct (readAsText f) as [csvData|] eqn:Hf.
    + exists (csvData :: texts). simpl. rewrite Hf, Ht. reflexivity.
    + exfalso. apply (H f); [left; reflexivity | exact Hf].
Qed.

End ReadFiles.

(* ===================================================================== *)
(** ** The chunker *)
(* ===================================================================== *)

Section Chunker.

Variable uniqueData : list jsstring.

Local Notation "'len'" := (Z.of_nat (length uniqueData)).

Lemma chunk_loop_step i chunks :
  i < len ->
  chunk_loop uniqueData i chunks =
  chunk_loop uniqueData (i + chunkSize)
    (chunks ++ [mkChunk (slice uniqueData i (i + chunkSize))]).
Proof.
  intros Hi. rewrite chunk_loop_equation_1.
  destruct (Z_lt_dec i len); [reflexivity | lia].
Qed.

Lemma chunk_loop_exit i chunks :
  len <= i -> chunk_loop uniqueData i chunks = chunks.
Proof.
  intros Hi. rewrite chunk_loop_equation_1.
  destruct (Z_lt_dec i len); [lia | reflexivity].
Qed.

(** Induction along the loop: from the exit condition back to any index. *)
Lemma chunk_loop_ind (P : Z -> Prop) :
  (forall i, len <= i -> P i) ->
  (forall i, 0 <= i < len -> P (i + chunkSize) -> P i) ->
  forall i, 0 <= i -> P i.
Proof.
  intros Hexit Hstep i.
  remember (Z.to_nat (len - i)) as n eqn:Hn. revert i Hn.
  induction n as [n IH] using lt_wf_ind. intros i Hn Hi.
  destruct (Z_lt_dec i len) as [Hlt|Hge].
  - apply Hstep; [lia|].
    apply (IH (Z.to_nat (len - (i + chunkSize)))); unfold chunkSize; lia.
  - apply Hexit. lia.
Qed.

(** A slice inside the array: its elements and its length. *)
Lemma slice_inside i j :
  0 <= i <= len -> i <= j ->
  slice uniqueData i j =
  firstn (Z.to_nat (Z.min j len - i)) (skipn (Z.to_nat i) uniqueData).
Proof.
  intros Hi Hj. unfold slice.
  destruct (Z.ltb_spec i 0); [lia|].
  destruct (Z.ltb_spec j 0); [lia|].
  rewrite (Z.min_l i len) by lia. reflexivity.
Qed.

Lemma slice_length i j :
  0 <= i <= len -> i <= j ->
  Z.of_nat (length (slice uniqueData i j)) = Z.min j len - i.
Proof.
  intros Hi Hj. rewrite slice_inside by assumption.
  rewrite length_firstn, length_skipn. lia.
Qed.

(** A chunk followed by the rest of the array is the array from the
    chunk's first index. *)
Lemma slice_skipn i :
  0 <= i < len ->
  slice uniqueData i (i + chunkSize)
    ++ skipn (Z.to_nat (i + chunkSize)) uniqueData =
  skipn (Z.to_nat i) uniqueData.
Proof.
  intros Hi. rewrite slice_inside by (unfold chunkSize; lia).
  set (k := Z.to_nat (Z.min (i + chunkSize) len - i)).
  rewrite <- (firstn_skipn k (skipn (Z.to_nat i) uniqueData)) at 2.
  f_equal. rewrite skipn_skipn.
  destruct (Z_le_dec (i + chunkSize) len).
  - f_equal. subst k. unfold chunkSize in *. lia.
  - rewrite !skipn_all2; [reflexivity | |];
      subst k; unfold chunkSize in *; lia.
Qed.

(** The chunks pushed so far stay where they are. *)
Lemma chunk_loop_acc i chunks :
  0 <= i ->
  chunk_loop uniqueData i chunks = chunks ++ chunk_loop uniqueData i [].
Proof.
  intros Hi. revert chunks.
  pattern i. apply chunk_loop_ind; [| |exact Hi]; clear i Hi.
  - intros i Hi chunks. rewrite !chunk_loop_exit by exact Hi.
    rewrite app_nil_r. reflexivity.
  - intros i Hi IH chunks.
    rewrite (chunk_loop_step i chunks), (chunk_loop_step i []) by lia.
    rewrite (IH (chunks ++ _)), (IH ([] ++ _)).
    rewrite <- app_assoc. reflexivity.
Qed.

Lemma chunk_loop_cons i :
  0 <= i < len ->
  chunk_loop uniqueData i [] =
  mkChunk (slice uniqueData i (i + chunkSize))
    :: chunk_loop uniqueData (i + chunkSize) [].
Proof.
  intros Hi. rewrite chunk_loop_step by lia.
  rewrite chunk_loop_acc by (unfold chunkSize; lia). reflexivity.
Qed.

(** The chunks produced from index [i] on hold the array from [i] on. *)
Lemma chunk_loop_concat i :
  0 <= i ->
  concat (map data (chunk_loop uniqueData i [])) =
  skipn (Z.to_nat i) uniqueData.
Proof.
  intros Hi0. pattern i. apply chunk_loop_ind; [| |exact Hi0]; clear i Hi0.
  - intros i Hi. rewrite chunk_loop_exit by exact Hi.
    rewrite skipn_all2 by lia. reflexivity.
  - intros i Hi IH. rewrite chunk_loop_cons by exact Hi.
    simpl. rewrite IH. apply slice_skipn. exact Hi.
Qed.

Lemma chunk_loop_sizes i :
  0 <= i -> chunk_sizes_ok (chunk_lengths (chunk_loop uniqueData i [])).
Proof.
  intros Hi0. pattern i. apply chunk_loop_ind; [| |exact Hi0]; clear i Hi0.
  - intros i Hi. rewrite chunk_loop_exit by exact Hi. exact I.
  - intros i Hi IH. rewrite chunk_loop_cons by exact Hi.
    unfold chunk_lengths in *. cbn [map data mkChunk].
    rewrite slice_length by (unfold chunkSize; lia).
    destruct (Z_lt_dec (i + chunkSize) len) as [Hlt|Hge].
    + assert (Hcs : chunkSize = 9000) by reflexivity.
      rewrite (chunk_loop_cons (i + chunkSize)) in IH |- * by lia.
      cbn [map] in *. split; [lia | exact IH].
    + rewrite chunk_loop_exit by lia. simpl. unfold chunkSize in *. lia.
Qed.

End Chunker.

(* ===================================================================== *)
(** ** [processFiles] *)
(* ===================================================================== *)

Section ProcessFiles.

Lemma readFiles_ext (a b : list File) st :
  map readAsText a = map readAsText b -> readFiles a st = readFiles b st.
Proof.
  revert b st. induction a as [|f a IH]; intros [|g b] st H;
    try discriminate; [reflexivity|].
  simpl in H. injection H as Hf Hab.
  cbn [readFiles]. rewrite Hf. destruct (readAsText g); [|reflexivity].
  apply IH. exact Hab.
Qed.

(** A run in which every read succeeds. *)
Lemma processFiles_resolves (s : AppState) files sched texts :
  selectedFiles s = Some files ->
  map readAsText (arrivals files sched) = map Some texts ->
  let uniqueData := first_seen (flat_map file_records texts) in
  processFiles s sched =
  ({| selectedFiles := Some files;
      stats := Some {| totalFiles := Z.of_nat (length files);
                       totalRecords := lines_read texts - blank_files texts;
                       duplicatesRemoved :=
                         lines_read texts - blank_files texts
                         - Z.of_nat (length uniqueData) |};
      processedChunks := chunk_loop uniqueData 0 [] |}, []).
Proof.
  intros Hsel Hread uniqueData. unfold processFiles. rewrite Hsel.
  rewrite (readFiles_resolves _ texts) by exact Hread.
  rewrite add_all_empty. reflexivity.
Qed.

(** A run in which some read fails. *)
Lemma processFiles_rejects (s : AppState) files sched :
  selectedFiles s = Some files ->
  (exists f, In f (arrivals files sched) /\ readAsText f = None) ->
  processFiles s sched =
  (s, [ConsoleError "Error reading files:";
       Alert "Error processing files. Please try again."]).
Proof.
  intros Hsel Hfail. unfold processFiles. rewrite Hsel.
  apply (proj2 (readFiles_rejects _ ([], 0))) in Hfail.
  rewrite Hfail. reflexivity.
Qed.

(** Without blank files the count is the number of lines read, and is
    at least the number of unique Records. *)
Lemma counts_without_blank_files (s : AppState) files sched texts :
  selectedFiles s = Some files ->
  map readAsText (arrivals files sched) = map Some texts ->
  blank_files texts = 0 ->
  exists st,
    stats (fst (processFiles s sched)) = Some st /\
    totalRecords st = lines_read texts /\
    0 <= duplicatesRemoved st.
Proof.
  intros Hsel Hread Hblank.
  rewrite (processFiles_resolves s files sched texts Hsel Hread).
  eexists. split; [reflexivity|]. cbn [totalRecords duplicatesRemoved].
  pose proof (first_seen_length (flat_map file_records texts)).
  unfold lines_read in *. lia.
Qed.

(** One file with a header and the same row twice: one Record, one
    duplicate removed. *)
Example processFiles_duplicate_rows :
  let s := handleFileChange initialState (Some [ex_duplicates]) in
  fst (processFiles s [0%nat]) =
  {| selectedFiles := Some [ex_duplicates];
     stats := Some {| totalFiles := 1;
                      totalRecords := 2;
                      duplicatesRemoved := 1 |};
     processedChunks := [mkChunk [lit "971501111111"]] |}.
Proof. reflexivity. Qed.

(** A file with a header and no row adds nothing to the count and
    nothing to the Corpus. *)
Example processFiles_header_only :
  let s := handleFileChange initialState (Some [ex_header_only]) in
  fst (processFiles s [0%nat]) =
  {| selectedFiles := Some [ex_header_only];
     stats := Some {| totalFiles := 1;
                      totalRecords := 0;
                      duplicatesRemoved := 0 |};
     processedChunks := [] |}.
Proof. reflexivity. Qed.

End ProcessFiles.

(* ===================================================================== *)
(** ** Statistics *)
(* ===================================================================== *)

(** C1. The claim that the unique-record count never exceeds
    [totalRecords] and that [duplicatesRemoved] is never negative breaks
    on a file without any line: for one empty file the run reports
    [totalRecords = -1] and [duplicatesRemoved = -1] with zero unique
    records. ([duplicatesRemoved] is [totalRecords] minus the unique
    count there as everywhere.) *)
Theorem empty_file_negative_counts :
  let s := handleFileChange initialState (Some [ex_empty]) in
  valid_sched [ex_empty] [0%nat] /\
  fst (processFiles s [0%nat]) =
  {| selectedFiles := Some [ex_empty];
     stats := Some {| totalFiles := 1;
                      totalRecords := -1;
                      duplicatesRemoved := -1 |};
     processedChunks := [] |}.
Proof.
  split.
  - apply Permutation_refl.
  - reflexivity.
Qed.

(** C10. A file with no line that is non-empty after trimming leaves
    [mergedData] as it is and adds -1 to [totalRecords]; in every
    successful run that reads such a file, [totalRecords] is below the
    number of non-header lines read, and [duplicatesRemoved] is below
    that number less the number of unique Records. *)
Theorem blank_file_subtracts_one (csvData : jsstring) :
  blank_file csvData = true ->
  (forall mergedData total,
      onload csvData (mergedData, total) = (mergedData, total - 1)) /\
  (forall s files sched texts,
      selectedFiles s = Some files ->
      map readAsText (arrivals files sched) = map Some texts ->
      In csvData texts ->
      exists st,
        stats (fst (processFiles s sched)) = Some st /\
        totalRecords st < lines_read texts /\
        duplicatesRemoved st <
        lines_read texts
        - Z.of_nat (length (first_seen (flat_map file_records texts)))).
Proof.
  intros Hblank. split.
  - intros mergedData total. rewrite onload_spec.
    unfold file_records. unfold blank_file in Hblank.
    destruct (filter nonblank (split_nl csvData)); [|discriminate].
    simpl. f_equal.
  - intros s files sched texts Hsel Hread Hin.
    rewrite (processFiles_resolves s files sched texts Hsel Hread).
    eexists. split; [reflexivity|]. cbn [totalRecords duplicatesRemoved].
    assert (0 < blank_files texts); [|lia].
    unfold blank_files.
    assert (Hf : In csvData (filter blank_file texts))
      by (apply filter_In; auto).
    destruct (filter blank_file texts); [destruct Hf | simpl length; lia].
Qed.

Lemma blank_file_subtracts_one_witness :
  blank_file (lit "") = true /\
  onload (lit "") ([], 0) = ([], -1).
Proof.
  split.
  - reflexivity.
  - exact (proj1 (blank_file_subtracts_one (lit "") eq_refl) [] 0).
Defined.

(* ===================================================================== *)
(** ** Order of the Corpus *)
(* ===================================================================== *)

(** C2, as the code has it. The Corpus is in first-seen order of the
    Records taken file by file in the order in which the reads complete,
    and in line order within each file; when the reads complete in the
    order the files were supplied, that is the supplied file order; and
    any run with the same texts in the same order of completion yields
    the same Corpus. *)
Theorem corpus_first_seen_by_arrival
  (files : list File) (sched : list nat) (texts : list jsstring) :
  map readAsText (arrivals files sched) = map Some texts ->
  corpus files sched = Some (first_seen (flat_map file_records texts)) /\
  NoDup (first_seen (flat_map file_records texts)) /\
  (forall supplied,
      map readAsText files = map Some supplied ->
      corpus files (in_order files) =
      Some (first_seen (flat_map file_records supplied))) /\
  (forall files' sched',
      map readAsText (arrivals files' sched') = map Some texts ->
      corpus files' sched' = corpus files sched).
Proof.
  intros Hread.
  assert (Hc : forall fs sc ts,
             map readAsText (arrivals fs sc) = map Some ts ->
             corpus fs sc = Some (first_seen (flat_map file_records ts))).
  { intros fs sc ts H. unfold corpus.
    rewrite (readFiles_resolves _ ts) by exact H.
    simpl. rewrite add_all_empty. reflexivity. }
  split; [apply Hc; exact Hread|].
  split; [apply first_seen_NoDup|]. split.
  - intros supplied Hs. apply Hc. rewrite arrivals_in_order. exact Hs.
  - intros files' sched' H'.
    rewrite (Hc _ _ _ H'), (Hc _ _ _ Hread). reflexivity.
Qed.

Lemma corpus_first_seen_by_arrival_witness :
  map readAsText (arrivals [ex_header_1; ex_header_2] [1; 0]%nat) =
  map Some [lit "phone" ++ LF :: lit "501234568";
            lit "phone" ++ LF :: lit "0501234567"] /\
  corpus [ex_header_1; ex_header_2] [1; 0]%nat =
  Some [lit "971501234568"; lit "971501234567"].
Proof.
  split.
  - reflexivity.
  - exact (proj1 (corpus_first_seen_by_arrival
                    [ex_header_1; ex_header_2] [1; 0]%nat
                    [lit "phone" ++ LF :: lit "501234568";
                     lit "phone" ++ LF :: lit "0501234567"] eq_refl)).
Defined.

(** C2, as stated, fails: with two files whose reads complete in the
    opposite order, the Corpus is not in supplied file order, and it
    differs from the Corpus of the run in which they complete in order. *)
Lemma corpus_not_in_file_order :
  let files := [ex_header_1; ex_header_2] in
  valid_sched files [1; 0]%nat /\
  first_seen (flat_map file_records
                [lit "phone" ++ LF :: lit "0501234567";
                 lit "phone" ++ LF :: lit "501234568"]) =
  [lit "971501234567"; lit "971501234568"] /\
  corpus files [1; 0]%nat = Some [lit "971501234568"; lit "971501234567"] /\
  corpus files (in_order files) =
  Some [lit "971501234567"; lit "971501234568"] /\
  corpus files [1; 0]%nat <> corpus files (in_order files).
Proof.
  cbv zeta. split; [apply perm_swap|].
  do 3 (split; [reflexivity|]).
  vm_compute. discriminate.
Qed.

(* ===================================================================== *)
(** ** The line normaliser *)
(* ===================================================================== *)

(** C3. Of the lines of a file, those empty after trimming are dropped,
    the first of the others is left out as the header, and each of the
    rest, in order, is added to the set as its Record: the line without
    its surrounding white space, without its first code unit when that
    is ['0'] (that one only, whatever follows), behind the prefix
    ["971"]. *)
Theorem normalizer_contract
  (csvData : jsstring) (mergedData : StringSet) (total : Z) :
  let rows := filter nonblank (split_nl csvData) in
  (forall row, In row rows <-> In row (split_nl csvData) /\ trim row <> []) /\
  fst (onload csvData (mergedData, total)) =
    fold_left add (map normalize (tl rows)) mergedData /\
  (forall row,
      (exists pre post,
          row = pre ++ trim row ++ post /\ all_ws pre /\ all_ws post) /\
      trimmed (trim row) /\
      (forall rest, trim row = ZERO :: rest ->
                    normalize row = lit "971" ++ rest) /\
      ((forall rest, trim row <> ZERO :: rest) ->
       normalize row = lit "971" ++ trim row)).
Proof.
  cbv zeta. split; [|split].
  - intros row. rewrite filter_In, nonblank_iff. tauto.
  - rewrite onload_spec. reflexivity.
  - intros row. split; [apply trim_decompose|].
    split; [apply trim_trimmed|].
    split; [apply normalize_zero | apply normalize_other].
Qed.

Lemma normalizer_contract_witness :
  trim (lit "  00501234567 ") = ZERO :: lit "0501234567" /\
  normalize (lit "  00501234567 ") = lit "9710501234567".
Proof.
  split.
  - reflexivity.
  - exact (proj1 (proj2 (proj2 (proj2 (proj2
             (normalizer_contract (lit "") [] 0))
             (lit "  00501234567 "))))
           (lit "0501234567") eq_refl).
Defined.

Section Idempotence.

Lemma trimStart_app (a b : jsstring) c :
  is_ws c = false -> trimStart (a ++ c :: b) = trimStart a ++ c :: b.
Proof.
  intros Hc. induction a as [|d a IH]; simpl.
  - rewrite Hc. reflexivity.
  - destruct (is_ws d); [exact IH | reflexivity].
Qed.

Lemma trimEnd_app (p x : jsstring) c :
  is_ws c = false -> trimEnd (p ++ c :: x) = p ++ c :: trimEnd x.
Proof.
  intros Hc. unfold trimEnd.
  rewrite rev_app_distr. simpl. rewrite <- app_assoc. simpl.
  rewrite trimStart_app by exact Hc.
  rewrite rev_app_distr. simpl.
  rewrite rev_involutive, <- app_assoc. reflexivity.
Qed.

(** Trimming a prefixed value only touches the end of what follows the
    prefix. *)
Lemma trim_prefixed (x : jsstring) :
  trim (lit "971" ++ x) = lit "971" ++ trimEnd x.
Proof.
  unfold trim. change (lit "971" ++ x) with ([57; 55]%N ++ 49%N :: x).
  simpl trimStart. apply (trimEnd_app [57; 55]%N x 49%N). reflexivity.
Qed.

Lemma normalize_prefixed (x : jsstring) :
  normalize (lit "971" ++ x) = lit "971" ++ lit "971" ++ trimEnd x.
Proof.
  unfold normalize. rewrite trim_prefixed. reflexivity.
Qed.

(** Putting the prefix in front of a right-trimmed value never gives the
    untrimmed value back. *)
Lemma prefix_trimEnd_differs (x : jsstring) : lit "971" ++ trimEnd x <> x.
Proof.
  intros Heq.
  destruct (trimEnd_decompose x) as (post & Hx & Hpost).
  assert (Hlen : length post = 3%nat).
  { apply (f_equal (@length _)) in Heq. rewrite Hx in Heq at 2.
    rewrite !length_app in Heq. simpl in Heq. lia. }
  destruct post as [|a [|b [|c [|? ?]]]]; try discriminate Hlen.
  assert (Hc : is_ws c = true).
  { unfold all_ws in Hpost. rewrite Forall_forall in Hpost.
    apply Hpost. simpl. auto. }
  rewrite Hx in Heq at 2.
  change (trimEnd x ++ [a; b; c]) with (trimEnd x ++ [a; b] ++ [c]) in Heq.
  rewrite app_assoc in Heq.
  assert (Ht : trimEnd x = [] \/ exists t d, trimEnd x = t ++ [d]).
  { destruct (trimEnd x) as [|y t']; [left; reflexivity | right].
    destruct (exists_last (l := y :: t')) as (t & d & Ht);
      [discriminate | eauto]. }
  destruct Ht as [Ht | (t & d & Ht)].
  - rewrite Ht in Heq. simpl in Heq. injection Heq as _ _ Hc'.
    rewrite <- Hc' in Hc. discriminate Hc.
  - pose proof (trimEnd_last x d t Ht) as Hd.
    rewrite Ht in Heq at 1. rewrite app_assoc in Heq.
    apply app_inj_tail in Heq. destruct Heq as [_ <-]. congruence.
Qed.

End Idempotence.

(** C4. Normalisation is not idempotent: on a value that carries the
    prefix ["971"] (so does not begin with ['0']) it yields the trimmed
    value behind one more prefix, which is never the value itself; on a
    Record, which has nothing to trim, it yields the Record behind one
    more prefix. *)
Theorem normalize_not_idempotent (v : jsstring) :
  has_prefix_971 v ->
  normalize v = lit "971" ++ trim v /\
  normalize v <> v /\
  (forall row, v = normalize row -> normalize v = lit "971" ++ v).
Proof.
  intros (x & ->). rewrite normalize_prefixed, trim_prefixed.
  split; [reflexivity|]. split.
  - intros H. apply app_inv_head in H.
    exact (prefix_trimEnd_differs x H).
  - intros row Hrow. rewrite <- trim_prefixed, Hrow.
    rewrite (trim_fixed _ (normalize_trimmed row)). reflexivity.
Qed.

Lemma normalize_not_idempotent_witness :
  has_prefix_971 (lit "971501234567") /\
  normalize (lit "971501234567") = lit "971971501234567" /\
  normalize (lit "971501234567") <> lit "971501234567".
Proof.
  assert (H : has_prefix_971 (lit "971501234567"))
    by (exists (lit "501234567"); reflexivity).
  split; [exact H|].
  split.
  - exact (proj1 (normalize_not_idempotent (lit "971501234567") H)).
  - exact (proj1 (proj2 (normalize_not_idempotent (lit "971501234567") H))).
Defined.

(* ===================================================================== *)
(** ** Chunks *)
(* ===================================================================== *)

Section Chunks.

(** The chunks of a run are those of its Corpus. *)
Lemma processFiles_chunks (s : AppState) files sched uniqueData :
  selectedFiles s = Some files ->
  corpus files sched = Some uniqueData ->
  processedChunks (fst (processFiles s sched)) = chunk_loop uniqueData 0 [].
Proof.
  unfold corpus, processFiles. intros -> Hc.
  destruct (readFiles (arrivals files sched) ([], 0)) as [[m t]|];
    [|discriminate].
  simpl in Hc. injection Hc as ->. reflexivity.
Qed.

Lemma chunk_loop_all (uniqueData : list jsstring) :
  concat (map data (chunk_loop uniqueData 0 [])) = uniqueData.
Proof. rewrite chunk_loop_concat by lia. reflexivity. Qed.

Lemma chunk_sizes_ok_nth (sizes : list Z) k n :
  chunk_sizes_ok sizes -> nth_error sizes k = Some n ->
  ((S k < length sizes)%nat -> n = chunkSize) /\
  (S k = length sizes -> 1 <= n <= chunkSize).
Proof.
  revert k. induction sizes as [|m rest IH]; intros k Hok Hk.
  - destruct k; discriminate.
  - destruct rest as [|m' rest'].
    + destruct k as [|k]; [|destruct k; discriminate].
      injection Hk as ->. simpl in *. split; [lia | auto].
    + destruct Hok as [Hm Hrest]. destruct k as [|k].
      * injection Hk as ->. simpl. split; [auto | lia].
      * destruct (IH k Hrest Hk) as [H1 H2]. simpl length in *.
        split; intros; [apply H1 | apply H2]; lia.
Qed.

Lemma chunk_sizes_ok_pos (sizes : list Z) :
  chunk_sizes_ok sizes -> Forall (fun n => 1 <= n) sizes.
Proof.
  induction sizes as [|m rest IH]; intros Hok; [constructor|].
  destruct rest as [|m' rest'].
  - simpl in Hok. constructor; [lia | constructor].
  - destruct Hok as [-> Hrest]. constructor; [unfold chunkSize; lia|].
    apply IH. exact Hrest.
Qed.

End Chunks.

(** C5. The records of the chunks of a run, one chunk after the other,
    are the Corpus: the same records in the same order. *)
Theorem chunks_partition_corpus
  (s : AppState) (files : list File) (sched : list nat)
  (uniqueData : StringSet) :
  selectedFiles s = Some files ->
  corpus files sched = Some uniqueData ->
  concat (map data (processedChunks (fst (processFiles s sched)))) =
  uniqueData.
Proof.
  intros Hsel Hc. rewrite (processFiles_chunks s files sched uniqueData Hsel Hc).
  apply chunk_loop_all.
Qed.

Lemma chunks_partition_corpus_witness :
  let s := handleFileChange initialState (Some [ex_header_1; ex_header_2]) in
  selectedFiles s = Some [ex_header_1; ex_header_2] /\
  corpus [ex_header_1; ex_header_2] [0; 1]%nat =
  Some [lit "971501234567"; lit "971501234568"] /\
  concat (map data (processedChunks (fst (processFiles s [0; 1]%nat)))) =
  [lit "971501234567"; lit "971501234568"].
Proof.
  cbv zeta. split; [reflexivity|]. split; [reflexivity|].
  exact (chunks_partition_corpus
           (handleFileChange initialState (Some [ex_header_1; ex_header_2]))
           [ex_header_1; ex_header_2] [0; 1]%nat
           [lit "971501234567"; lit "971501234568"] eq_refl eq_refl).
Defined.

(** C6. Of the chunks made from a Corpus, every one but the last holds
    9000 records and the last holds between 1 and 9000; a Corpus of
    9005 records gives two chunks, of 9000 and of 5 records. *)
Theorem chunk_size_bound (uniqueData : list jsstring) :
  let sizes := chunk_lengths (chunk_loop uniqueData 0 []) in
  (forall k n, nth_error sizes k = Some n ->
               ((S k < length sizes)%nat -> n = 9000) /\
               (S k = length sizes -> 1 <= n <= 9000)) /\
  (Z.of_nat (length uniqueData) = 9005 -> sizes = [9000; 5]).
Proof.
  cbv zeta. split.
  - intros k n Hk.
    apply (chunk_sizes_ok_nth _ k n (chunk_loop_sizes uniqueData 0 ltac:(lia)) Hk).
  - intros Hlen. unfold chunk_lengths.
    rewrite (chunk_loop_cons uniqueData 0) by lia.
    rewrite (chunk_loop_cons uniqueData (0 + chunkSize))
      by (unfold chunkSize; lia).
    rewrite chunk_loop_exit by (unfold chunkSize; lia).
    cbn [map data mkChunk].
    rewrite !slice_length by (unfold chunkSize; lia).
    unfold chunkSize. rewrite Hlen. reflexivity.
Qed.

Lemma chunk_size_bound_witness :
  Z.of_nat (length ex_corpus) = 9005 /\
  chunk_lengths (chunk_loop ex_corpus 0 []) = [9000; 5].
Proof.
  assert (H : Z.of_nat (length ex_corpus) = 9005) by (vm_compute; reflexivity).
  split; [exact H|].
  exact (proj2 (chunk_size_bound ex_corpus) H).
Defined.

(* ===================================================================== *)
(** ** Errors *)
(* ===================================================================== *)

(** C7. When the read of any selected file fails, the run ends with the
    error logged and an alert shown, and the state of the component is
    what it was: statistics and chunks of an earlier run stay. *)
Theorem read_failure_changes_nothing
  (s : AppState) (files : list File) (sched : list nat) :
  selectedFiles s = Some files ->
  valid_sched files sched ->
  (exists f, In f files /\ readAsText f = None) ->
  processFiles s sched =
  (s, [ConsoleError "Error reading files:";
       Alert "Error processing files. Please try again."]).
Proof.
  intros Hsel Hsched (f & Hin & Hf).
  apply (processFiles_rejects s files sched Hsel).
  exists f. split; [|exact Hf].
  apply (Permutation_in f (Permutation_sym (arrivals_Permutation _ _ Hsched))).
  exact Hin.
Qed.

Lemma read_failure_changes_nothing_witness :
  let s1 := fst (processFiles
                   (handleFileChange initialState (Some [ex_header_1]))
                   [0%nat]) in
  let s2 := handleFileChange s1 (Some [ex_header_2; ex_unreadable]) in
  selectedFiles s2 = Some [ex_header_2; ex_unreadable] /\
  valid_sched [ex_header_2; ex_unreadable] [0; 1]%nat /\
  In ex_unreadable [ex_header_2; ex_unreadable] /\
  chunk_lengths (processedChunks s2) = [1] /\
  processFiles s2 [0; 1]%nat =
  (s2, [ConsoleError "Error reading files:";
        Alert "Error processing files. Please try again."]).
Proof.
  cbv zeta.
  assert (Hv : valid_sched [ex_header_2; ex_unreadable] [0; 1]%nat)
    by apply Permutation_refl.
  assert (Hin : In ex_unreadable [ex_header_2; ex_unreadable])
    by (right; left; reflexivity).
  split; [reflexivity|]. split; [exact Hv|]. split; [exact Hin|].
  split; [reflexivity|].
  apply (read_failure_changes_nothing _ [ex_header_2; ex_unreadable]);
    [reflexivity | exact Hv |].
  exists ex_unreadable. split; [exact Hin | reflexivity].
Defined.

Section Selection.

Lemma handleFileChange_selection (s : AppState) files :
  selectedFiles s <> Some [] ->
  selectedFiles (handleFileChange s files) <> Some [].
Proof.
  intros Hs. unfold handleFileChange.
  destruct files as [[|f fs]|]; simpl; try exact Hs. discriminate.
Qed.

Lemma processFiles_selection (s : AppState) sched :
  selectedFiles (fst (processFiles s sched)) = selectedFiles s.
Proof.
  unfold processFiles. destruct (selectedFiles s) as [files|] eqn:Hsel.
  - destruct (readFiles _ _) as [[m t]|]; simpl; congruence.
  - simpl. exact Hsel.
Qed.

(** The component never holds an empty selection: with no file
    selected, [selectedFiles] is [null]. *)
Lemma reachable_selection (s : AppState) :
  reachable s -> selectedFiles s <> Some [].
Proof.
  induction 1 as [|s s' _ IH Hstep]; [discriminate|].
  destruct Hstep as [s files | s sched _].
  - apply handleFileChange_selection. exact IH.
  - rewrite processFiles_selection. exact IH.
Qed.

End Selection.

(** C8. When no file is selected, [processFiles] shows the alert and
    leaves the state of the component as it was: no statistics, no
    chunks. An empty list of files offered to [handleFileChange] is not
    taken as a selection, so it leaves no file selected. *)
Theorem no_selection_alerts (s : AppState) (sched : list nat) :
  selectedFiles s = None ->
  processFiles s sched = (s, [Alert "Please select at least one CSV file."]) /\
  handleFileChange s (Some []) = s /\
  handleFileChange s None = s.
Proof.
  intros Hnone. split; [|split; reflexivity].
  unfold processFiles. rewrite Hnone. reflexivity.
Qed.

Lemma no_selection_alerts_witness :
  let s := handleFileChange initialState (Some []) in
  selectedFiles s = None /\
  processFiles s [] =
  (initialState, [Alert "Please select at least one CSV file."]).
Proof.
  cbv zeta. split; [reflexivity|].
  exact (proj1 (no_selection_alerts
                  (handleFileChange initialState (Some [])) [] eq_refl)).
Defined.

(* ===================================================================== *)
(** ** The prefix invariant *)
(* ===================================================================== *)

Section Prefix.

Lemma file_records_ok (csvData r : jsstring) :
  In r (file_records csvData) -> has_prefix_971 r /\ ~ In LF r.
Proof.
  unfold file_records. intros H. apply in_map_iff in H.
  destruct H as (row & <- & Hrow). split; [apply normalize_prefix|].
  apply normalize_no_LF.
  assert (Hin : In row (split_nl csvData)).
  { destruct (filter nonblank (split_nl csvData)) as [|h rows] eqn:Hf;
      [destruct Hrow|].
    assert (Hin : In row (filter nonblank (split_nl csvData)))
      by (rewrite Hf; right; exact Hrow).
    apply filter_In in Hin. tauto. }
  pose proof (split_nl_no_LF csvData) as Hall.
  rewrite Forall_forall in Hall. exact (Hall row Hin).
Qed.

Lemma readFiles_resolved_texts (arrived : list File) st st' :
  readFiles arrived st = Some st' ->
  exists texts, map readAsText arrived = map Some texts.
Proof.
  intros H. apply all_read. intros f Hf Hnone.
  assert (Hrej : readFiles arrived st = None)
    by (apply readFiles_rejects; eauto).
  congruence.
Qed.

Lemma corpus_records_ok (files : list File) sched uniqueData :
  corpus files sched = Some uniqueData ->
  Forall (fun r => has_prefix_971 r /\ ~ In LF r) uniqueData.
Proof.
  unfold corpus. intros Hc.
  destruct (readFiles (arrivals files sched) ([], 0)) as [st|] eqn:Hr;
    [|discriminate].
  destruct (readFiles_resolved_texts _ _ _ Hr) as (texts & Ht).
  rewrite (readFiles_resolves _ texts) in Hr by exact Ht.
  injection Hr as <-. simpl in Hc. injection Hc as <-.
  rewrite add_all_empty. apply Forall_forall. intros r Hin.
  apply (proj1 (first_seen_In _ _)) in Hin. apply in_flat_map in Hin.
  destruct Hin as (csvData & _ & Hin). exact (file_records_ok csvData r Hin).
Qed.

Lemma chunk_loop_chunk_ok (uniqueData : list jsstring) :
  Forall (fun r => has_prefix_971 r /\ ~ In LF r) uniqueData ->
  Forall chunk_ok (chunk_loop uniqueData 0 []).
Proof.
  intros Hu. apply Forall_forall. intros c Hc. split.
  - pose proof (chunk_sizes_ok_pos _
                  (chunk_loop_sizes uniqueData 0 ltac:(lia))) as Hpos.
    rewrite Forall_forall in Hpos.
    assert (Hin : In (Z.of_nat (length (data c)))
                    (chunk_lengths (chunk_loop uniqueData 0 [])))
      by (apply (in_map (fun c => Z.of_nat (length (data c)))); exact Hc).
    apply Hpos in Hin. intros Hnil. rewrite Hnil in Hin.
    simpl in Hin. lia.
  - apply Forall_forall. intros r Hr.
    rewrite Forall_forall in Hu. apply Hu.
    rewrite <- (chunk_loop_all uniqueData). apply in_concat.
    exists (data c). split; [apply in_map; exact Hc | exact Hr].
Qed.

Lemma processFiles_chunks_ok (s : AppState) sched :
  Forall chunk_ok (processedChunks s) ->
  Forall chunk_ok (processedChunks (fst (processFiles s sched))).
Proof.
  intros Hs.
  destruct (selectedFiles s) as [files|] eqn:Hsel.
  - destruct (corpus files sched) as [uniqueData|] eqn:Hc.
    + rewrite (processFiles_chunks s files sched uniqueData Hsel Hc).
      apply chunk_loop_chunk_ok. exact (corpus_records_ok _ _ _ Hc).
    + unfold corpus in Hc. unfold processFiles. rewrite Hsel.
      destruct (readFiles (arrivals files sched) ([], 0)); [discriminate|].
      exact Hs.
  - unfold processFiles. rewrite Hsel. exact Hs.
Qed.

(** Every chunk the component ever holds is a chunk of Records. *)
Lemma reachable_chunks_ok (s : AppState) :
  reachable s -> Forall chunk_ok (processedChunks s).
Proof.
  induction 1 as [|s s' _ IH Hstep]; [constructor|].
  destruct Hstep as [s files | s sched _].
  - unfold handleFileChange.
    destruct files as [fs|]; [|exact IH].
    destruct (0 <? Z.of_nat (length fs)); exact IH.
  - apply processFiles_chunks_ok. exact IH.
Qed.

End Prefix.

(** C9. Every Record of the Corpus of a run begins with ["971"], and so
    does every record of every chunk that the component holds; the text
    exported for a chunk has one line per record of the chunk, the
    records themselves, so each line of an exported file begins with
    ["971"] too. *)
Theorem records_carry_prefix :
  (forall files sched uniqueData,
      corpus files sched = Some uniqueData ->
      Forall has_prefix_971 uniqueData) /\
  (forall s c,
      reachable s -> In c (processedChunks s) ->
      Forall has_prefix_971 (data c) /\
      split_nl (downloadChunk (data c)) = data c).
Proof.
  split.
  - intros files sched uniqueData Hc.
    eapply Forall_impl; [|exact (corpus_records_ok _ _ _ Hc)].
    intros r [Hr _]. exact Hr.
  - intros s c Hreach Hc.
    pose proof (reachable_chunks_ok s Hreach) as Hok.
    rewrite Forall_forall in Hok. destruct (Hok c Hc) as [Hne Hrec].
    split.
    + eapply Forall_impl; [|exact Hrec]. intros r [Hr _]. exact Hr.
    + unfold downloadChunk. apply split_join_nl; [exact Hne|].
      eapply Forall_impl; [|exact Hrec]. intros r [_ Hr]. exact Hr.
Qed.

Lemma records_carry_prefix_witness :
  let s := fst (processFiles
                  (handleFileChange initialState (Some [ex_header_1]))
                  [0%nat]) in
  reachable s /\
  In (mkChunk [lit "971501234567"]) (processedChunks s) /\
  Forall has_prefix_971 [lit "971501234567"].
Proof.
  cbv zeta.
  assert (Hr : reachable
                 (fst (processFiles
                         (handleFileChange initialState (Some [ex_header_1]))
                         [0%nat]))).
  { eapply reachable_step.
    - eapply reachable_step; [apply reachable_initial|].
      apply (step_handleFileChange initialState (Some [ex_header_1])).
    - apply step_processFiles. intros files H.
      injection H as <-. apply Permutation_refl. }
  assert (Hin : In (mkChunk [lit "971501234567"])
                  (processedChunks
                     (fst (processFiles
                             (handleFileChange initialState
                                (Some [ex_header_1]))
                             [0%nat]))))
    by (left; reflexivity).
  split; [exact Hr|]. split; [exact Hin|].
  exact (proj1 (proj2 records_carry_prefix _ _ Hr Hin)).
Defined.

(* ===================================================================== *)
(** ** Which lines give the same Record *)
(* ===================================================================== *)

Section SameRecord.

Lemma trimStart_ws_app (pre s : jsstring) :
  all_ws pre -> trimStart (pre ++ s) = trimStart s.
Proof.
  induction 1 as [|c pre Hc _ IH]; simpl; [reflexivity|].
  rewrite Hc. exact IH.
Qed.

Lemma trimEnd_app_ws (s post : jsstring) :
  all_ws post -> trimEnd (s ++ post) = trimEnd s.
Proof.
  intros Hpost. unfold trimEnd. rewrite rev_app_distr.
  rewrite trimStart_ws_app; [reflexivity|].
  unfold all_ws. apply Forall_rev. exact Hpost.
Qed.

Lemma trim_app_ws (s post : jsstring) :
  all_ws post -> trim (s ++ post) = trim s.
Proof.
  intros Hpost. unfold trim. induction s as [|c s IH]; simpl.
  - rewrite (trimStart_all_ws post Hpost). reflexivity.
  - destruct (is_ws c); [exact IH|].
    apply (trimEnd_app_ws (c :: s) post Hpost).
Qed.

(** White space around a line is not part of what [trim] returns. *)
Lemma trim_surrounded (pre s post : jsstring) :
  all_ws pre -> all_ws post -> trim (pre ++ s ++ post) = trim s.
Proof.
  intros Hpre Hpost.
  transitivity (trim (s ++ post)); [|apply trim_app_ws; exact Hpost].
  unfold trim. rewrite trimStart_ws_app by exact Hpre. reflexivity.
Qed.

End SameRecord.

(** X1. White space around a line (blanks, tabs, the carriage return of
    a CRLF line ending) changes neither whether the line survives the
    blank filter nor the Record it gives. *)
Theorem surrounding_whitespace_ignored (pre row post : jsstring) :
  all_ws pre -> all_ws post ->
  nonblank (pre ++ row ++ post) = nonblank row /\
  normalize (pre ++ row ++ post) = normalize row.
Proof.
  intros Hpre Hpost. unfold nonblank, normalize.
  rewrite (trim_surrounded pre row post Hpre Hpost). split; reflexivity.
Qed.

Lemma surrounding_whitespace_ignored_witness :
  all_ws (lit "  ") /\ all_ws [13%N] /\
  normalize (lit "  " ++ lit "0501234567" ++ [13%N]) = lit "971501234567".
Proof.
  assert (H1 : all_ws (lit "  ")) by (repeat constructor).
  assert (H2 : all_ws [13%N]) by (repeat constructor).
  split; [exact H1|]. split; [exact H2|].
  exact (proj2 (surrounding_whitespace_ignored
                  (lit "  ") (lit "0501234567") [13%N] H1 H2)).
Defined.

(** X2. A value and the same value behind one ['0'] give the same
    Record, so the two count as duplicates of each other; the value is
    any trimmed, non-empty string that does not itself begin with
    ['0']. *)
Theorem leading_zero_same_record (v : jsstring) :
  trimmed v -> v <> [] -> (forall rest, v <> ZERO :: rest) ->
  normalize (ZERO :: v) = normalize v /\
  normalize v = lit "971" ++ v.
Proof.
  intros Hv Hne Hz.
  assert (Hzv : trimmed (ZERO :: v)).
  { destruct Hv as [_ Hlast]. split.
    - intros c s' H. injection H as <- _. reflexivity.
    - intros c s' H. destruct s' as [|d s'].
      + destruct v; [congruence | discriminate].
      + injection H as _ H. exact (Hlast c s' H). }
  rewrite (normalize_zero (ZERO :: v) v (trim_fixed _ Hzv)).
  rewrite normalize_other; rewrite (trim_fixed v Hv); auto.
Qed.

Lemma leading_zero_same_record_witness :
  trimmed (lit "501234567") /\
  normalize (ZERO :: lit "501234567") = normalize (lit "501234567").
Proof.
  assert (Ht : trimmed (lit "501234567")).
  { split.
    - intros c s' H. injection H as <- _. reflexivity.
    - intros c s' H.
      change (lit "501234567") with (lit "50123456" ++ [55%N]) in H.
      apply app_inj_tail in H. destruct H as [_ <-]. reflexivity. }
  split; [exact Ht|].
  refine (proj1 (leading_zero_same_record (lit "501234567") Ht _ _)).
  - discriminate.
  - intros rest H. discriminate H.
Defined.

(* ===================================================================== *)
(** ** The chunks, one by one *)
(* ===================================================================== *)

Section ChunkIndex.

Variable uniqueData : list jsstring.

Local Notation "'len'" := (Z.of_nat (length uniqueData)).

(** The number of iterations of the chunk loop. *)
Local Notation "'count'" := (Z.to_nat ((len + (chunkSize - 1)) / chunkSize)).

Local Notation "'chunk_at' k" :=
  (mkChunk (slice uniqueData (chunkSize * Z.of_nat k)
              (chunkSize * Z.of_nat k + chunkSize)))
  (at level 10).

Lemma chunk_loop_from (m j : nat) :
  (j + m = count)%nat ->
  chunk_loop uniqueData (chunkSize * Z.of_nat j) [] =
  map (fun k => chunk_at k) (seq j m).
Proof.
  revert j. induction m as [|m IH]; intros j Hj.
  - apply chunk_loop_exit. unfold chunkSize in *.
    Z.to_euclidean_division_equations. lia.
  - rewrite chunk_loop_cons
      by (unfold chunkSize in *; Z.to_euclidean_division_equations; lia).
    cbn [seq map]. f_equal.
    replace (chunkSize * Z.of_nat j + chunkSize)
      with (chunkSize * Z.of_nat (S j)) by lia.
    apply IH. lia.
Qed.

Lemma chunk_loop_explicit :
  chunk_loop uniqueData 0 [] = map (fun k => chunk_at k) (seq 0 count).
Proof. apply (chunk_loop_from count 0). reflexivity. Qed.

(** A slice of [chunkSize] elements that starts inside the array. *)
Lemma slice_chunk_at (k : nat) :
  chunkSize * Z.of_nat k <= len ->
  slice uniqueData (chunkSize * Z.of_nat k)
    (chunkSize * Z.of_nat k + chunkSize) =
  firstn (Z.to_nat chunkSize) (skipn (Z.to_nat chunkSize * k) uniqueData).
Proof.
  intros Hk. rewrite slice_inside by (unfold chunkSize in *; lia).
  replace (Z.to_nat (chunkSize * Z.of_nat k))
    with (Z.to_nat chunkSize * k)%nat by (unfold chunkSize; lia).
  set (rest := skipn (Z.to_nat chunkSize * k) uniqueData).
  assert (Hrest : length rest = (length uniqueData - Z.to_nat chunkSize * k)%nat)
    by apply length_skipn.
  destruct (Z_le_dec (chunkSize * Z.of_nat k + chunkSize) len) as [Hle|Hgt].
  - f_equal. unfold chunkSize in *. lia.
  - rewrite !firstn_all2; [reflexivity | |]; unfold chunkSize in *; lia.
Qed.

Lemma chunk_loop_length :
  Z.of_nat (length (chunk_loop uniqueData 0 [])) = (len + 8999) / 9000.
Proof.
  rewrite chunk_loop_explicit, length_map, length_seq. unfold chunkSize.
  Z.to_euclidean_division_equations. lia.
Qed.

Lemma chunk_loop_nth (k : nat) (c : ProcessedChunk) :
  nth_error (chunk_loop uniqueData 0 []) k = Some c ->
  data c = firstn (Z.to_nat 9000) (skipn (Z.to_nat 9000 * k) uniqueData).
Proof.
  rewrite chunk_loop_explicit. intros Hk.
  rewrite nth_error_map in Hk.
  destruct (nth_error (seq 0 _) k) as [j|] eqn:Hj; [|discriminate].
  simpl in Hk. injection Hk as <-.
  rewrite nth_error_seq in Hj.
  destruct (Nat.ltb_spec k count) as [Hlt|]; [|discriminate].
  injection Hj as <-. simpl Nat.add. cbn [data mkChunk].
  apply slice_chunk_at. unfold chunkSize in *.
  Z.to_euclidean_division_equations. lia.
Qed.

End ChunkIndex.

(** X3. A Corpus of [n] records is cut into the ceiling of [n / 9000]
    chunks (none for an empty Corpus), and the chunk at position [k]
    (from 0) holds the 9000 records that follow the first [9000 * k],
    or as many as are left. *)
Theorem chunk_count_and_content (uniqueData : list jsstring) :
  Z.of_nat (length (chunk_loop uniqueData 0 [])) =
  (Z.of_nat (length uniqueData) + 8999) / 9000 /\
  (forall k c,
      nth_error (chunk_loop uniqueData 0 []) k = Some c ->
      data c = firstn (Z.to_nat 9000) (skipn (Z.to_nat 9000 * k) uniqueData)).
Proof.
  split; [apply chunk_loop_length | apply chunk_loop_nth].
Qed.

Lemma chunk_count_and_content_witness :
  nth_error (chunk_loop [lit "971501234567"; lit "971501234568"] 0 []) 0 =
  Some (mkChunk [lit "971501234567"; lit "971501234568"]) /\
  [lit "971501234567"; lit "971501234568"] =
  firstn (Z.to_nat 9000)
    (skipn (Z.to_nat 9000 * 0) [lit "971501234567"; lit "971501234568"]).
Proof.
  assert (H : nth_error
                (chunk_loop [lit "971501234567"; lit "971501234568"] 0 []) 0 =
              Some (mkChunk [lit "971501234567"; lit "971501234568"]))
    by reflexivity.
  split; [exact H|].
  exact (proj2 (chunk_count_and_content
                  [lit "971501234567"; lit "971501234568"]) 0%nat _ H).
Defined.

(* ===================================================================== *)
(** ** What the component shows *)
(* ===================================================================== *)

Section Display.

(** A run either leaves the state as it is and raises an effect, or
    every read succeeded and the state is rebuilt from the texts. *)
Lemma processFiles_cases (s : AppState) sched :
  (fst (processFiles s sched) = s /\ snd (processFiles s sched) <> []) \/
  (exists files texts,
      selectedFiles s = Some files /\
      map readAsText (arrivals files sched) = map Some texts /\
      let uniqueData := first_seen (flat_map file_records texts) in
      processFiles s sched =
      ({| selectedFiles := Some files;
          stats := Some {| totalFiles := Z.of_nat (length files);
                           totalRecords := lines_read texts - blank_files texts;
                           duplicatesRemoved :=
                             lines_read texts - blank_files texts
                             - Z.of_nat (length uniqueData) |};
          processedChunks := chunk_loop uniqueData 0 [] |}, [])).
Proof.
  destruct (selectedFiles s) as [files|] eqn:Hsel.
  - destruct (readFiles (arrivals files sched) ([], 0)) as [st|] eqn:Hr.
    + right. destruct (readFiles_resolved_texts _ _ _ Hr) as (texts & Ht).
      exists files, texts. split; [reflexivity|]. split; [exact Ht|].
      apply processFiles_resolves; assumption.
    + left. unfold processFiles. rewrite Hsel, Hr. split; [reflexivity|].
      discriminate.
  - left. unfold processFiles. rewrite Hsel. split; [reflexivity|].
    discriminate.
Qed.

Lemma sumZ_chunk_lengths (chunks : list ProcessedChunk) :
  sumZ (chunk_lengths chunks) = Z.of_nat (length (concat (map data chunks))).
Proof.
  unfold chunk_lengths. induction chunks as [|c chunks IH]; [reflexivity|].
  simpl. rewrite length_app, IH. lia.
Qed.

Lemma chunk_loop_mkChunk (uniqueData : list jsstring) :
  Forall (fun c => c = mkChunk (data c)) (chunk_loop uniqueData 0 []).
Proof.
  rewrite chunk_loop_explicit. apply Forall_forall. intros c Hc.
  apply in_map_iff in Hc. destruct Hc as (k & <- & _). reflexivity.
Qed.

(** What holds of the statistics and the chunks in every state the
    component can reach. *)
Lemma reachable_display (s : AppState) :
  reachable s ->
  NoDup (concat (map data (processedChunks s))) /\
  Forall (fun c => c = mkChunk (data c)) (processedChunks s) /\
  match stats s with
  | None => processedChunks s = []
  | Some st =>
      1 <= totalFiles st /\
      duplicatesRemoved st + sumZ (chunk_lengths (processedChunks s)) =
      totalRecords st
  end.
Proof.
  induction 1 as [|s s' Hreach IH Hstep].
  - simpl. repeat split; constructor.
  - destruct Hstep as [s files | s sched _].
    + unfold handleFileChange. destruct files as [fs|]; [|exact IH].
      destruct (0 <? Z.of_nat (length fs)); exact IH.
    + destruct (processFiles_cases s sched)
        as [[-> _] | (files & texts & Hsel & Ht & Heq)]; [exact IH|].
      cbv zeta in Heq. rewrite Heq. cbn [fst processedChunks stats].
      rewrite sumZ_chunk_lengths, chunk_loop_all.
      split; [apply first_seen_NoDup|].
      split; [apply chunk_loop_mkChunk|].
      cbn [totalFiles duplicatesRemoved totalRecords]. split; [|lia].
      pose proof (reachable_selection s Hreach) as Hne.
      destruct files; [congruence | simpl length; lia].
Qed.

End Display.

(** X4. In every state the component can reach, the statistics on
    display agree with the chunks on display: the duplicates removed
    and the records held by the chunks add up to the total of records,
    the number of files is at least one, and chunks are never shown
    without statistics. *)
Theorem statistics_match_chunks (s : AppState) :
  reachable s ->
  (processedChunks s <> [] -> stats s <> None) /\
  (forall st, stats s = Some st ->
              1 <= totalFiles st /\
              duplicatesRemoved st + sumZ (chunk_lengths (processedChunks s)) =
              totalRecords st).
Proof.
  intros Hreach.
  destruct (reachable_display s Hreach) as (_ & _ & Hstats).
  destruct (stats s) as [st|].
  - split; [discriminate|]. intros st' [= <-]. exact Hstats.
  - split; [congruence | discriminate].
Qed.

(** X5. No record is held twice by the chunks on display, neither
    inside a chunk nor in two of them: a number is exported once. *)
Theorem no_record_in_two_chunks (s : AppState) :
  reachable s -> NoDup (concat (map data (processedChunks s))).
Proof. intros Hreach. apply (reachable_display s Hreach). Qed.


Section DisplayWitnesses.

(** The state after selecting and processing one file with a duplicated
    row. *)
Lemma ex_duplicates_reachable :
  reachable (fst (processFiles
                    (handleFileChange initialState (Some [ex_duplicates]))
                    [0%nat])).
Proof.
  eapply reachable_step.
  - eapply reachable_step; [apply reachable_initial|].
    apply (step_handleFileChange initialState (Some [ex_duplicates])).
  - apply step_processFiles. intros files H.
    injection H as <-. apply Permutation_refl.
Qed.

End DisplayWitnesses.

Lemma statistics_match_chunks_witness :
  let s := fst (processFiles
                  (handleFileChange initialState (Some [ex_duplicates]))
                  [0%nat]) in
  reachable s /\
  stats s = Some {| totalFiles := 1; totalRecords := 2; duplicatesRemoved := 1 |} /\
  1 + sumZ (chunk_lengths (processedChunks s)) = 2.
Proof.
  cbv zeta. split; [exact ex_duplicates_reachable|]. split; [reflexivity|].
  exact (proj2 (proj2 (statistics_match_chunks _ ex_duplicates_reachable)
                  _ eq_refl)).
Defined.

Lemma no_record_in_two_chunks_witness :
  let s := fst (processFiles
                  (handleFileChange initialState (Some [ex_duplicates]))
                  [0%nat]) in
  reachable s /\ NoDup (concat (map data (processedChunks s))).
Proof.
  cbv zeta. split; [exact ex_duplicates_reachable|].
  exact (no_record_in_two_chunks _ ex_duplicates_reachable).
Defined.


(* ===================================================================== *)
(** ** The order of completion *)
(* ===================================================================== *)

Section Completion.

Lemma map_Some_inj {A} (l l' : list A) : map Some l = map Some l' -> l = l'.
Proof.
  revert l'. induction l as [|x l IH]; intros [|y l'] H;
    try discriminate; [reflexivity|].
  simpl in H. injection H as -> H. f_equal. apply IH. exact H.
Qed.

Lemma filter_length_Permutation {A} (f : A -> bool) (l l' : list A) :
  Permutation l l' -> length (filter f l) = length (filter f l').
Proof.
  induction 1 as [|x l l' _ IH|x y l|l l' l'' _ IH1 _ IH2]; simpl.
  - reflexivity.
  - destruct (f x); simpl; congruence.
  - destruct (f x), (f y); reflexivity.
  - congruence.
Qed.

(** The texts of two orders of completion are the same texts. *)
Lemma arrivals_texts_Permutation (files : list File) sched sched' texts texts' :
  valid_sched files sched -> valid_sched files sched' ->
  map readAsText (arrivals files sched) = map Some texts ->
  map readAsText (arrivals files sched') = map Some texts' ->
  Permutation texts texts'.
Proof.
  intros Hv Hv' Ht Ht'.
  assert (Hp : Permutation (arrivals files sched) (arrivals files sched')).
  { etransitivity; [apply arrivals_Permutation; exact Hv|].
    symmetry. apply arrivals_Permutation. exact Hv'. }
  apply (Permutation_map readAsText) in Hp. rewrite Ht, Ht' in Hp.
  destruct (Permutation_map_inv _ _ Hp) as (l3 & Heq & Hperm).
  apply map_Some_inj in Heq. subst l3. symmetry. exact Hperm.
Qed.

Lemma first_seen_Permutation (vs vs' : list jsstring) :
  Permutation vs vs' -> Permutation (first_seen vs) (first_seen vs').
Proof.
  intros Hp. apply NoDup_Permutation; try apply first_seen_NoDup.
  intros r. rewrite !first_seen_In.
  split; apply Permutation_in; [exact Hp | symmetry; exact Hp].
Qed.

(** The lengths of the chunks depend on the length of the Corpus only. *)
Lemma chunk_lengths_by_length (u u' : list jsstring) :
  length u = length u' ->
  chunk_lengths (chunk_loop u 0 []) = chunk_lengths (chunk_loop u' 0 []).
Proof.
  intros Hlen. rewrite !chunk_loop_explicit. unfold chunk_lengths.
  rewrite !map_map, Hlen. apply map_ext_in. intros k Hk.
  apply in_seq in Hk. cbn [data mkChunk].
  assert (chunkSize * Z.of_nat k <= Z.of_nat (length u')).
  { unfold chunkSize in *. Z.to_euclidean_division_equations. lia. }
  rewrite !slice_length by (unfold chunkSize in *; lia).
  rewrite Hlen. reflexivity.
Qed.

(** A failing file rejects the run in whatever order the reads
    complete. *)
Lemma read_failure_rejects_any (s : AppState) files sched :
  selectedFiles s = Some files -> valid_sched files sched ->
  forall f, In f files -> readAsText f = None ->
  processFiles s sched =
  (s, [ConsoleError "Error reading files:";
       Alert "Error processing files. Please try again."]).
Proof.
  intros Hsel Hv f Hin Hf.
  apply (processFiles_rejects s files sched Hsel).
  exists f. split; [|exact Hf].
  apply (Permutation_in f (Permutation_sym (arrivals_Permutation _ _ Hv))).
  exact Hin.
Qed.

End Completion.



(* ===================================================================== *)
(** ** The size of a chunk *)
(* ===================================================================== *)

Section BlobSize.

Lemma utf8_length_cons (c : char) (s' : jsstring) :
  utf8_length (c :: s') =
  if (c <? 128)%N then 1 + utf8_length s'
  else if (c <? 2048)%N then 2 + utf8_length s'
  else if is_high c then
    match s' with
    | d :: s'' => if is_low d then 4 + utf8_length s''
                  else 3 + utf8_length s'
    | [] => 3
    end
  else 3 + utf8_length s'.
Proof. reflexivity. Qed.

(** The encoding of two strings in a row is the two encodings in a row,
    unless the second begins with the low half of a surrogate pair. *)
Lemma utf8_length_app (a b : jsstring) :
  (forall c b', b = c :: b' -> is_low c = false) ->
  utf8_length (a ++ b) = utf8_length a + utf8_length b.
Proof.
  intros Hb.
  remember (length a) as n eqn:Hn.
  assert (Hle : (length a <= n)%nat) by lia. clear Hn.
  revert a Hle. induction n as [|n IH]; intros a Hle.
  - destruct a; [reflexivity | simpl in Hle; lia].
  - destruct a as [|c a']; [reflexivity|]. simpl in Hle.
    rewrite <- app_comm_cons, !utf8_length_cons.
    destruct (c <? 128)%N; [rewrite IH by lia; lia|].
    destruct (c <? 2048)%N; [rewrite IH by lia; lia|].
    destruct (is_high c); [|rewrite IH by lia; lia].
    destruct a' as [|d a''].
    + simpl app. destruct b as [|e b']; [reflexivity|].
      rewrite (Hb e b' eq_refl). lia.
    + simpl in Hle. rewrite <- app_comm_cons.
      destruct (is_low d).
      * rewrite IH by lia. lia.
      * rewrite app_comm_cons, IH by (simpl; lia). lia.
Qed.

Lemma utf8_length_bounds (s : jsstring) :
  Z.of_nat (length s) <= utf8_length s <= 3 * Z.of_nat (length s).
Proof.
  remember (length s) as n eqn:Hn.
  assert (Hle : (length s <= n)%nat) by lia.
  rewrite Hn. clear Hn.
  revert s Hle. induction n as [|n IH]; intros s Hle.
  - destruct s; [simpl; lia | simpl in Hle; lia].
  - destruct s as [|c s']; [simpl; lia|]. simpl in Hle.
    rewrite utf8_length_cons.
    pose proof (IH s' ltac:(lia)) as Hs'.
    simpl length.
    destruct (c <? 128)%N; [lia|].
    destruct (c <? 2048)%N; [lia|].
    destruct (is_high c); [|lia].
    destruct s' as [|d s'']; [simpl; lia|].
    simpl in Hle. pose proof (IH s'' ltac:(lia)) as Hs''.
    simpl length in *. destruct (is_low d); lia.
Qed.

Lemma utf8_length_ascii (s : jsstring) :
  ascii_only s -> utf8_length s = Z.of_nat (length s).
Proof.
  induction 1 as [|c s Hc _ IH]; [reflexivity|].
  rewrite utf8_length_cons.
  apply N.ltb_lt in Hc. rewrite Hc, IH. simpl length. lia.
Qed.

Lemma utf8_length_join_nl (rows : list jsstring) :
  utf8_length (join_nl rows) =
  sumZ (map utf8_length rows) + Z.max 0 (Z.of_nat (length rows) - 1).
Proof.
  induction rows as [|r rows IH]; [reflexivity|].
  destruct rows as [|r' rows'].
  - simpl. lia.
  - rewrite join_nl_cons by discriminate.
    rewrite utf8_length_app
      by (intros c b' H; injection H as <- _; reflexivity).
    rewrite utf8_length_cons. change (LF <? 128)%N with true. cbv iota.
    rewrite IH. simpl map. simpl sumZ. simpl length. lia.
Qed.

End BlobSize.

(** X8. The size recorded for a chunk is the sum of the UTF-8 sizes of
    its records plus one byte for each separator between two of them;
    a record of [n] code units takes between [n] and [3 n] bytes, and
    exactly [n] when it is ASCII (as a Record made of digits is). *)
Theorem chunk_size_sums_records (chunk : list jsstring) :
  size (mkChunk chunk) =
  sumZ (map utf8_length chunk) + Z.max 0 (Z.of_nat (length chunk) - 1) /\
  (forall r, Z.of_nat (length r) <= utf8_length r <= 3 * Z.of_nat (length r)) /\
  (forall r, ascii_only r -> utf8_length r = Z.of_nat (length r)).
Proof.
  split; [apply utf8_length_join_nl|].
  split; [apply utf8_length_bounds | apply utf8_length_ascii].
Qed.

Lemma chunk_size_sums_records_witness :
  ascii_only (lit "971501234567") /\
  utf8_length (lit "971501234567") = 12 /\
  size (mkChunk [lit "971501234567"; lit "971501234568"]) = 25.
Proof.
  assert (H : ascii_only (lit "971501234567"))
    by (repeat constructor).
  split; [exact H|]. split.
  - exact (proj2 (proj2 (chunk_size_sums_records [])) _ H).
  - exact (proj1 (chunk_size_sums_records
                    [lit "971501234567"; lit "971501234568"])).
Defined.

(** X9. The size shown for a chunk on display is the size in bytes of
    the file that its download saves, whatever the day and the position
    of the chunk. *)
Theorem displayed_size_is_download_size
  (s : AppState) (c : ProcessedChunk) (today : Date) (index : Z) :
  reachable s -> In c (processedChunks s) ->
  size c = utf8_length (content (downloadChunk_file today (data c) index)).
Proof.
  intros Hreach Hc.
  destruct (reachable_display s Hreach) as (_ & Hmk & _).
  rewrite Forall_forall in Hmk. rewrite (Hmk c Hc) at 1. reflexivity.
Qed.

Lemma displayed_size_is_download_size_witness :
  let s := fst (processFiles
                  (handleFileChange initialState (Some [ex_duplicates]))
                  [0%nat]) in
  let today := {| getDate := 3; getMonth := 10; getFullYear := 2026 |} in
  reachable s /\
  In (mkChunk [lit "971501111111"]) (processedChunks s) /\
  12 = utf8_length
         (content (downloadChunk_file today [lit "971501111111"] 0)).
Proof.
  cbv zeta.
  assert (Hin : In (mkChunk [lit "971501111111"])
                  (processedChunks
                     (fst (processFiles
                             (handleFileChange initialState
                                (Some [ex_duplicates]))
                             [0%nat]))))
    by (left; reflexivity).
  split; [exact ex_duplicates_reachable|]. split; [exact Hin|].
  exact (displayed_size_is_download_size _ _
           {| getDate := 3; getMonth := 10; getFullYear := 2026 |} 0
           ex_duplicates_reachable Hin).
Defined.

(* ===================================================================== *)
(** ** One callback after another *)
(* ===================================================================== *)




(** X12. A run that succeeds rebuilds the statistics and the chunks from
    the selected files alone: nothing of the results on display before
    the run is left in them, and running again gives the same state. *)
Theorem results_rebuilt_each_run (s s' : AppState) (sched : list nat) :
  selectedFiles s' = selectedFiles s ->
  snd (processFiles s sched) = [] ->
  processFiles s' sched = processFiles s sched /\
  processFiles (fst (processFiles s sched)) sched = processFiles s sched.
Proof.
  intros Hsel Hok.
  destruct (processFiles_cases s sched)
    as [[_ Hne] | (files & texts & Hs & Ht & Heq)]; [congruence|].
  cbv zeta in Heq. split.
  - rewrite Heq. rewrite Hs in Hsel.
    apply (processFiles_resolves s' files sched texts Hsel Ht).
  - rewrite Heq. cbn [fst].
    apply (processFiles_resolves _ files sched texts); [reflexivity | exact Ht].
Qed.

Lemma results_rebuilt_each_run_witness :
  let s := handleFileChange initialState (Some [ex_duplicates]) in
  let s' := handleFileChange
              (fst (processFiles
                      (handleFileChange initialState (Some [ex_header_1]))
                      [0%nat]))
              (Some [ex_duplicates]) in
  selectedFiles s' = selectedFiles s /\
  snd (processFiles s [0%nat]) = [] /\
  processedChunks s' = [mkChunk [lit "971501234567"]] /\
  processFiles s' [0%nat] = processFiles s [0%nat].
Proof.
  cbv zeta. split; [reflexivity|]. split; [reflexivity|].
  split; [reflexivity|].
  exact (proj1 (results_rebuilt_each_run
                  (handleFileChange initialState (Some [ex_duplicates]))
                  (handleFileChange
                     (fst (processFiles
                             (handleFileChange initialState
                                (Some [ex_header_1]))
                             [0%nat]))
                     (Some [ex_duplicates]))
                  [0%nat] eq_refl eq_refl)).
Defined.

(* ===================================================================== *)
(** ** The name of an exported file *)
(* ===================================================================== *)

Section DownloadName.

Lemma digits_small (n : Z) : n < 10 -> digits n = [digit n].
Proof.
  intros Hn. rewrite digits_equation_1.
  destruct (Z_lt_dec n 10); [reflexivity | lia].
Qed.

Lemma digits_big (n : Z) :
  10 <= n -> digits n = digits (n / 10) ++ [digit (n mod 10)].
Proof.
  intros Hn. rewrite digits_equation_1.
  destruct (Z_lt_dec n 10); [lia | reflexivity].
Qed.

Lemma digits_value_snoc (s : jsstring) (c : char) :
  digits_value (s ++ [c]) = 10 * digits_value s + (Z.of_N c - 48).
Proof. unfold digits_value. rewrite fold_left_app. reflexivity. Qed.

Lemma digit_value (d : Z) : 0 <= d -> Z.of_N (digit d) - 48 = d.
Proof. intros Hd. unfold digit. rewrite Z2N.id by lia. lia. Qed.

(** Reading the decimal digits of a number gives the number back. *)
Lemma digits_value_digits (n : Z) : 0 <= n -> digits_value (digits n) = n.
Proof.
  intros Hn.
  assert (H : forall k : nat, forall m, 0 <= m < Z.of_nat k ->
                                        digits_value (digits m) = m).
  { induction k as [|k IH]; intros m Hm; [lia|].
    destruct (Z_lt_dec m 10) as [Hlt|Hge].
    - rewrite digits_small by exact Hlt.
      unfold digits_value. simpl. rewrite digit_value by lia. lia.
    - rewrite digits_big by lia. rewrite digits_value_snoc.
      rewrite IH by (Z.to_euclidean_division_equations; lia).
      rewrite digit_value by (Z.to_euclidean_division_equations; lia).
      Z.to_euclidean_division_equations. lia. }
  apply (H (S (Z.to_nat n))). lia.
Qed.

Lemma digits_inj (n m : Z) :
  0 <= n -> 0 <= m -> digits n = digits m -> n = m.
Proof.
  intros Hn Hm H. apply (f_equal digits_value) in H.
  rewrite !digits_value_digits in H by assumption. exact H.
Qed.

Lemma String_of_number_nonneg (n : Z) : 0 <= n -> String_of_number n = digits n.
Proof.
  intros Hn. unfold String_of_number.
  destruct (Z.ltb_spec n 0); [lia | reflexivity].
Qed.

(** A number below one hundred, padded to two digits. *)
Lemma padStart_two_digits (d : Z) :
  0 <= d <= 99 ->
  padStart (String_of_number d) 2 ZERO = [digit (d / 10); digit (d mod 10)].
Proof.
  intros Hd. rewrite String_of_number_nonneg by lia. unfold padStart.
  destruct (Z_lt_dec d 10) as [Hlt|Hge].
  - rewrite digits_small by exact Hlt. simpl.
    rewrite Z.div_small, Z.mod_small by lia. reflexivity.
  - rewrite digits_big by lia.
    rewrite digits_small by (Z.to_euclidean_division_equations; lia).
    reflexivity.
Qed.

(** The digits of a number from ten on end with its tens and its units. *)
Lemma digits_last_two (y : Z) :
  10 <= y ->
  exists p, digits y = p ++ [digit ((y / 10) mod 10); digit (y mod 10)].
Proof.
  intros Hy. rewrite digits_big by exact Hy.
  destruct (Z_lt_dec (y / 10) 10) as [Hlt|Hge].
  - exists []. rewrite digits_small by exact Hlt.
    rewrite (Z.mod_small (y / 10)) by (Z.to_euclidean_division_equations; lia).
    reflexivity.
  - exists (digits (y / 10 / 10)). rewrite (digits_big (y / 10)) by lia.
    rewrite <- app_assoc. reflexivity.
Qed.

(** [s.slice(-2)] of a string of two code units or more. *)
Lemma slice_last_two {A} (p : list A) (a b : A) :
  slice (p ++ [a; b]) (-2) (Z.of_nat (length (p ++ [a; b]))) = [a; b].
Proof.
  unfold slice. rewrite length_app. simpl length.
  change (-2 <? 0) with true. cbv iota.
  destruct (Z.ltb_spec (Z.of_nat (length p + 2)) 0); [lia|].
  rewrite Z.min_id.
  replace (Z.max (Z.of_nat (length p + 2) + -2) 0)
    with (Z.of_nat (length p)) by lia.
  rewrite Nat2Z.id, skipn_app, skipn_all, Nat.sub_diag. simpl skipn.
  replace (Z.to_nat (Z.of_nat (length p + 2) - Z.of_nat (length p)))
    with 2%nat by lia.
  reflexivity.
Qed.

End DownloadName.

(** X13. On a calendar date the date part of the file name is six
    digits: two for the day of the month, two for the month counted from
    one, and the last two of the year. *)
Theorem date_is_six_digits (today : Date) :
  calendar_date today ->
  let d := getDate today in
  let m := getMonth today + 1 in
  let y := getFullYear today in
  dateStr today =
  [digit (d / 10); digit (d mod 10);
   digit (m / 10); digit (m mod 10);
   digit ((y / 10) mod 10); digit (y mod 10)].
Proof.
  intros (Hd & Hm & Hy). cbv zeta. unfold dateStr.
  rewrite !padStart_two_digits by lia.
  rewrite String_of_number_nonneg by lia.
  destruct (digits_last_two (getFullYear today) Hy) as (p & ->).
  rewrite slice_last_two. reflexivity.
Qed.

Lemma date_is_six_digits_witness :
  calendar_date {| getDate := 3; getMonth := 10; getFullYear := 2026 |} /\
  dateStr {| getDate := 3; getMonth := 10; getFullYear := 2026 |} =
  lit "031126".
Proof.
  assert (H : calendar_date
                {| getDate := 3; getMonth := 10; getFullYear := 2026 |})
    by (unfold calendar_date; simpl; lia).
  split; [exact H|].
  exact (date_is_six_digits _ H).
Defined.



(* ===================================================================== *)
(** ** From the files to the chunks *)
(* ===================================================================== *)

(** X15. After a run that succeeds, the chunks hold exactly the Records
    of the files read: a value is in some chunk if and only if it is the
    Record of a line, past the header, of one of the files. *)
Theorem chunks_hold_the_records
  (s : AppState) (files : list File) (sched : list nat) (texts : list jsstring) :
  selectedFiles s = Some files ->
  map readAsText (arrivals files sched) = map Some texts ->
  forall r,
    In r (concat (map data (processedChunks (fst (processFiles s sched))))) <->
    exists csvData row,
      In csvData texts /\
      In row (tl (filter nonblank (split_nl csvData))) /\
      r = normalize row.
Proof.
  intros Hsel Ht r.
  rewrite (processFiles_resolves s files sched texts Hsel Ht).
  cbn [fst processedChunks]. rewrite chunk_loop_all, first_seen_In, in_flat_map.
  unfold file_records. split.
  - intros (csvData & Hin & Hr). apply in_map_iff in Hr.
    destruct Hr as (row & <- & Hrow). eauto.
  - intros (csvData & row & Hin & Hrow & ->).
    exists csvData. split; [exact Hin|]. apply in_map. exact Hrow.
Qed.

Lemma chunks_hold_the_records_witness :
  let s := handleFileChange initialState (Some [ex_duplicates]) in
  selectedFiles s = Some [ex_duplicates] /\
  In (lit "971501111111")
     (concat (map data (processedChunks (fst (processFiles s [0%nat]))))).
Proof.
  cbv zeta. split; [reflexivity|].
  apply (proj2 (chunks_hold_the_records
                  (handleFileChange initialState (Some [ex_duplicates]))
                  [ex_duplicates] [0%nat]
                  [lit "phone" ++ LF :: lit "0501111111"
                     ++ LF :: lit "0501111111"]
                  eq_refl eq_refl (lit "971501111111"))).
  exists (lit "phone" ++ LF :: lit "0501111111" ++ LF :: lit "0501111111").
  exists (lit "0501111111").
  split; [left; reflexivity|]. split; [left; reflexivity | reflexivity].
Defined.

(** X16. The statistics of a run that succeeds, exactly: the total is
    the number of lines read past the headers less one for each file
    without any line, and the duplicates are the total less the number
    of unique Records; with no such file the duplicates lie between
    zero and the total. *)
Theorem statistics_accounting
  (s : AppState) (files : list File) (sched : list nat) (texts : list jsstring) :
  selectedFiles s = Some files ->
  map readAsText (arrivals files sched) = map Some texts ->
  exists st,
    stats (fst (processFiles s sched)) = Some st /\
    totalFiles st = Z.of_nat (length files) /\
    totalRecords st = lines_read texts - blank_files texts /\
    duplicatesRemoved st =
      totalRecords st
      - Z.of_nat (length (first_seen (flat_map file_records texts))) /\
    - blank_files texts <= duplicatesRemoved st <= totalRecords st /\
    (blank_files texts = 0 -> 0 <= duplicatesRemoved st).
Proof.
  intros Hsel Ht.
  rewrite (processFiles_resolves s files sched texts Hsel Ht).
  eexists. split; [reflexivity|].
  cbn [totalFiles totalRecords duplicatesRemoved].
  pose proof (first_seen_length (flat_map file_records texts)) as Hle.
  unfold lines_read in *.
  repeat split; lia.
Qed.

Lemma statistics_accounting_witness :
  let s := handleFileChange initialState (Some [ex_duplicates; ex_empty]) in
  selectedFiles s = Some [ex_duplicates; ex_empty] /\
  exists st,
    stats (fst (processFiles s [0; 1]%nat)) = Some st /\
    totalRecords st = 2 - 1 /\
    duplicatesRemoved st = totalRecords st - 1.
Proof.
  cbv zeta. split; [reflexivity|].
  destruct (statistics_accounting
              (handleFileChange initialState (Some [ex_duplicates; ex_empty]))
              [ex_duplicates; ex_empty] [0; 1]%nat
              [lit "phone" ++ LF :: lit "0501111111" ++ LF :: lit "0501111111";
               lit ""]
              eq_refl eq_refl)
    as (st & Hst & _ & Htotal & Hdup & _).
  exists st. split; [exact Hst|]. split; [exact Htotal | exact Hdup].
Defined.

Section Shape.

Lemma trim_length (s : jsstring) : (length (trim s) <= length s)%nat.
Proof.
  destruct (trim_decompose s) as (pre & post & Heq & _ & _).
  rewrite Heq at 2. rewrite !length_app. lia.
Qed.

End Shape.

(** X17. A Record has no white space at either end, holds at least the
    three code units of the prefix, and is at most three code units
    longer than the line it comes from. *)
Theorem record_shape (row : jsstring) :
  trimmed (normalize row) /\
  (3 <= length (normalize row) <= length row + 3)%nat.
Proof.
  split; [apply normalize_trimmed|].
  unfold normalize. rewrite length_app.
  change (length (lit "971")) with 3%nat.
  pose proof (trim_length row) as Hlen.
  destruct (startsWith (trim row) (lit "0")); [|lia].
  unfold substring1. destruct (trim row); simpl in *; lia.
Qed.

Section Position.

Lemma nth_error_firstn_lt {A} (l : list A) (n i : nat) :
  (i < n)%nat -> nth_error (firstn n l) i = nth_error l i.
Proof.
  revert n i. induction l as [|x l IH]; intros n i Hi.
  - rewrite firstn_nil. reflexivity.
  - destruct n as [|n]; [lia|]. destruct i as [|i]; [reflexivity|].
    simpl. apply IH. lia.
Qed.

Lemma nth_error_skipn_add {A} (l : list A) (a i : nat) :
  nth_error (skipn a l) i = nth_error l (a + i).
Proof.
  revert l. induction a as [|a IH]; intros l; [reflexivity|].
  destruct l as [|x l]; [destruct i; reflexivity|].
  simpl. apply IH.
Qed.

End Position.

(** X18. The record at position [p] of the Corpus (from 0) is in the
    chunk at position [p / 9000], at position [p mod 9000] of it. *)
Theorem record_position_in_chunks
  (uniqueData : list jsstring) (p : nat) (r : jsstring) :
  nth_error uniqueData p = Some r ->
  exists c,
    nth_error (chunk_loop uniqueData 0 []) (p / Z.to_nat 9000) = Some c /\
    nth_error (data c) (p mod Z.to_nat 9000) = Some r.
Proof.
  intros Hp.
  assert (Hlt : (p < length uniqueData)%nat)
    by (apply nth_error_Some; congruence).
  set (n := Z.to_nat 9000) in *.
  assert (Hn : Z.of_nat n = 9000) by (subst n; lia).
  assert (Hn0 : n <> 0%nat) by lia.
  pose proof (Nat.div_mod_eq p n) as Hdm.
  pose proof (Nat.mod_upper_bound p n Hn0) as Hmod.
  destruct (nth_error (chunk_loop uniqueData 0 []) (p / n)) as [c|] eqn:Hc.
  - exists c. split; [reflexivity|].
    rewrite (chunk_loop_nth uniqueData _ c Hc).
    fold n. rewrite nth_error_firstn_lt by exact Hmod.
    rewrite nth_error_skipn_add, <- Hdm. exact Hp.
  - exfalso. apply nth_error_None in Hc.
    pose proof (chunk_loop_length uniqueData) as Hcount.
    assert (Hq : Z.of_nat (p / n) * 9000 <= Z.of_nat p) by nia.
    Z.to_euclidean_division_equations. nia.
Qed.

Lemma record_position_in_chunks_witness :
  nth_error [lit "971501234567"; lit "971501234568"] 1 =
  Some (lit "971501234568") /\
  exists c,
    nth_error (chunk_loop [lit "971501234567"; lit "971501234568"] 0 [])
      (1 / Z.to_nat 9000) = Some c /\
    nth_error (data c) (1 mod Z.to_nat 9000) = Some (lit "971501234568").
Proof.
  split; [reflexivity|].
  exact (record_position_in_chunks
           [lit "971501234567"; lit "971501234568"] 1
           (lit "971501234568") eq_refl).
Defined.
